(** * remap-rolling.js: grid remapping and window alignment

    A shallow embedding of [src/remap-rolling.js] and the properties of its
    grid mapper, window aligner, date parser and rewriting passes.

    Numbers.  Every JavaScript number the program computes is an integer far
    below 2^53 in absolute value (years have at most four digits, the clock is
    a valid time value), so doubles are modelled by [Z]: [Math.floor (a / b)]
    is [Z.div], and [a % b], whose sign follows the dividend, is [Z.rem].

    Strings.  A JavaScript string is a sequence of UTF-16 code units,
    modelled as [list N]. *)

From Stdlib Require Import ZArith NArith List Bool Lia String Ascii DecimalString.
From Equations Require Import Equations.
Import ListNotations.
Local Open Scope Z_scope.

(* ===================================================================== *)
(** ** Strings of code units *)
(* ===================================================================== *)

Definition jsstring := list N.

(** The code unit of an ASCII character and the string of an ASCII literal. *)
Definition cu (c : ascii) : N := N_of_ascii c.
Definition js (s : string) : jsstring := map cu (list_ascii_of_string s).

(* ===================================================================== *)
(** ** Outcomes: a value, or one of the program's three [throw]s *)
(* ===================================================================== *)

Inductive error : Type :=
| BadDate (s : jsstring)        (* "Bad date: " + s *)
| DrawingTooWide (width : Z)    (* "Drawing uses ${width} columns but ..." *)
| FutureDays.                   (* "Cannot align drawing without using future days ..." *)

Inductive result (A : Type) : Type :=
| Ok (a : A)
| Throw (e : error).
Arguments Ok {A} a.
Arguments Throw {A} e.

Definition bind {A B} (x : result A) (f : A -> result B) : result B :=
  match x with
  | Ok a => f a
  | Throw e => Throw e
  end.

Notation "x <- c1 ;; c2" := (bind c1 (fun x => c2))
  (at level 61, c1 at next level, right associativity).

(** [xs.map(f)] for an [f] that may throw: the first exception, in index
    order, aborts the map. *)
Fixpoint mapM {A B} (f : A -> result B) (xs : list A) : result (list B) :=
  match xs with
  | [] => Ok []
  | x :: xs' => y <- f x ;; ys <- mapM f xs' ;; Ok (y :: ys)
  end.

(* ===================================================================== *)
(** ** Grid mapper (lines 50-51) *)
(* ===================================================================== *)

Record ColRow : Type := { col : Z; row : Z }.

(** [i => ({ col: Math.floor(i / 7), row: i % 7 })] *)
Definition toColRow (i : Z) : ColRow := {| col := i / 7; row := Z.rem i 7 |}.

(** [(c, r) => c * 7 + r] *)
Definition fromColRow (c r : Z) : Z := c * 7 + r.

(* ===================================================================== *)
(** ** Window aligner (lines 104-151 of [main]) *)
(* ===================================================================== *)

Inductive Align : Type := AlignLeft | AlignCenter | AlignRight.

Definition GRID_WEEKS : Z := 53.
Definition rightmostCol : Z := GRID_WEEKS - 1.

(** [Math.min(...xs)] and [Math.max(...xs)] of a non-empty argument list
    [x, ...xs]. *)
Definition Math_min (x : Z) (xs : list Z) : Z := fold_left Z.min xs x.
Definition Math_max (x : Z) (xs : list Z) : Z := fold_left Z.max xs x.

(** [p => (p.col + shiftCols === rightmostCol) && (p.row > todayRow)] *)
Definition violatesFuture (shiftCols todayRow : Z) (p : ColRow) : bool :=
  (col p + shiftCols =? rightmostCol) && (row p >? todayRow).

(** The loop guard of line 143. *)
Definition mustNudge (colRows : list ColRow) (minCol todayRow shiftCols : Z) : bool :=
  existsb (violatesFuture shiftCols todayRow) colRows && (minCol + shiftCols >? 0).

(** A value together with the equation that names it, so that the loop
    below can use its guard to justify the recursive call. *)
Definition inspect {A : Type} (x : A) : { y : A | x = y } := exist _ x eq_refl.

(** [while (colRows.some(violatesFuture) && (minCol + shiftCols > 0)) shiftCols -= 1;]
    The value is [shiftCols] at loop exit.  Every iteration lowers
    [minCol + shiftCols], which the guard keeps positive. *)
Equations? nudge (colRows : list ColRow) (minCol todayRow shiftCols : Z) : Z
  by wf (Z.to_nat (minCol + shiftCols)) lt :=
  nudge colRows minCol todayRow shiftCols
    with inspect (mustNudge colRows minCol todayRow shiftCols) => {
    | exist _ true G := nudge colRows minCol todayRow (shiftCols - 1);
    | exist _ false _ := shiftCols }.
Proof.
  unfold mustNudge in G. apply andb_prop in G. destruct G as [_ G]. lia.
Qed.

(** The three branches of lines 126-135. *)
Definition candidateShift (align : Align) (minCol maxCol width : Z) : Z :=
  match align with
  | AlignLeft => 0 - minCol
  | AlignRight => rightmostCol - maxCol
  | AlignCenter => (GRID_WEEKS - width) / 2 - minCol
  end.

(** Lines 138-139. *)
Definition clampShift (minCol maxCol shiftCols : Z) : Z :=
  Z.min (Z.max shiftCols (- minCol)) (rightmostCol - maxCol).

Definition minColOf (p : ColRow) (ps : list ColRow) : Z := Math_min (col p) (map col ps).
Definition maxColOf (p : ColRow) (ps : list ColRow) : Z := Math_max (col p) (map col ps).

(** The value of [shiftCols] when the loop of lines 143-145 exits, for a
    drawing [p :: ps] that passed the width check. *)
Definition shiftAfterLoop (align : Align) (todayRow : Z) (p : ColRow) (ps : list ColRow) : Z :=
  let minCol := minColOf p ps in
  let maxCol := maxColOf p ps in
  let width := maxCol - minCol + 1 in
  nudge (p :: ps) minCol todayRow
        (clampShift minCol maxCol (candidateShift align minCol maxCol width)).

(** Lines 104-151: from the extracted positions [p :: ps] (there is at least
    one, line 94) to the final [shiftCols], or to one of the two [throw]s. *)
Definition shiftCols (align : Align) (todayRow : Z) (p : ColRow) (ps : list ColRow) : result Z :=
  let minCol := minColOf p ps in
  let maxCol := maxColOf p ps in
  let width := maxCol - minCol + 1 in
  if width >? GRID_WEEKS then Throw (DrawingTooWide width)
  else
    let s := shiftAfterLoop align todayRow p ps in
    if existsb (violatesFuture s todayRow) (p :: ps) then Throw FutureDays
    else Ok s.

(* ===================================================================== *)
(** ** The built-in [Date] (ECMA-262, "Time Values and Time Range")

    A time value is a number of milliseconds since 1970-01-01T00:00:00Z.
    The definitions follow the abstract operations of the standard by
    name.  [TimeClip] is the identity on every time value met here. *)
(* ===================================================================== *)

Definition msPerDay : Z := 86400000.

Definition Day (t : Z) : Z := t / msPerDay.

Definition DayFromYear (y : Z) : Z :=
  365 * (y - 1970) + (y - 1969) / 4 - (y - 1901) / 100 + (y - 1601) / 400.

Definition DaysInYear (y : Z) : Z := DayFromYear (y + 1) - DayFromYear y.

(** The largest [y] with [DayFromYear y <= d]: the estimate of the first
    line is off by at most one. *)
Definition YearFromDay (d : Z) : Z :=
  let y := 1970 + (400 * d) / 146097 in
  if DayFromYear (y + 1) <=? d then y + 1
  else if DayFromYear y <=? d then y
  else y - 1.

Definition YearFromTime (t : Z) : Z := YearFromDay (Day t).

(** [1] in a leap year and [0] otherwise. *)
Definition InLeapYear (y : Z) : Z := DaysInYear y - 365.

(** The day within the year on which month [m] (0 = January) begins; month
    12 stands for the first day of the next year. *)
Definition monthStart (leap m : Z) : Z :=
  match m with
  | 0 => 0
  | 1 => 31
  | 2 => 59 + leap
  | 3 => 90 + leap
  | 4 => 120 + leap
  | 5 => 151 + leap
  | 6 => 181 + leap
  | 7 => 212 + leap
  | 8 => 243 + leap
  | 9 => 273 + leap
  | 10 => 304 + leap
  | 11 => 334 + leap
  | _ => 365 + leap
  end.

Definition DayWithinYear (t : Z) : Z := Day t - DayFromYear (YearFromTime t).

Definition MonthFromTime (t : Z) : Z :=
  let leap := InLeapYear (YearFromTime t) in
  let d := DayWithinYear t in
  if d <? 31 then 0
  else if d <? 59 + leap then 1
  else if d <? 90 + leap then 2
  else if d <? 120 + leap then 3
  else if d <? 151 + leap then 4
  else if d <? 181 + leap then 5
  else if d <? 212 + leap then 6
  else if d <? 243 + leap then 7
  else if d <? 273 + leap then 8
  else if d <? 304 + leap then 9
  else if d <? 334 + leap then 10
  else 11.

Definition DateFromTime (t : Z) : Z :=
  DayWithinYear t - monthStart (InLeapYear (YearFromTime t)) (MonthFromTime t) + 1.

Definition WeekDay (t : Z) : Z := (Day t + 4) mod 7.

(** [MakeDay (year, month, date)]: months outside 0..11 carry into the year
    and dates outside the month carry into the neighbouring months. *)
Definition MakeDay (year month date : Z) : Z :=
  let ym := year + month / 12 in
  let mn := month mod 12 in
  DayFromYear ym + monthStart (InLeapYear ym) mn + date - 1.

(** [Date.UTC(year, month, date, 0, 0, 0)] and [Date.UTC(year, month, date)]:
    a year in 0..99 means 1900 + year. *)
Definition Date_UTC (year month date : Z) : Z :=
  let yr := if (0 <=? year) && (year <=? 99) then 1900 + year else year in
  MakeDay yr month date * msPerDay.

(** [String(n)] of an integer and [s.padStart(2, "0")]. *)
Definition String_of_Z (n : Z) : jsstring := js (NilZero.string_of_int (Z.to_int n)).

Definition padStart2 (s : jsstring) : jsstring :=
  repeat (cu "0") (2 - List.length s) ++ s.

(* ===================================================================== *)
(** ** Regular expressions

    The fragment of JavaScript's backtracking matcher that the program's
    patterns use: character classes, concatenation, ordered alternation,
    the greedy star, the assertions [^] and [$] (with or without the [m]
    flag) and numbered capture groups.  The matcher is written in
    continuation-passing style: [k] is the rest of the pattern, and a
    [None] from it makes the matcher try its next alternative. *)
(* ===================================================================== *)

Inductive regex : Type :=
| Eps                              (* the empty pattern *)
| Chr (p : N -> bool)              (* one code unit of a class *)
| Cat (r1 r2 : regex)              (* r1r2 *)
| Alt (r1 r2 : regex)              (* r1|r2 *)
| Star (r : regex)                 (* r*, greedy *)
| Bol                              (* ^ *)
| Eol                              (* $ *)
| Grp (i : nat) (r : regex).       (* the i-th capture group *)

(** Where the matcher stands: the code unit before the position (if any),
    the input from the position on, how many code units the attempt has
    consumed, and the groups captured so far. *)
Record mstate : Type :=
  { prev : option N; rest : jsstring; pos : nat; caps : list (nat * jsstring) }.

Definition isLineTerminator (c : N) : bool :=
  ((c =? 10) || (c =? 13) || (c =? 8232) || (c =? 8233))%N.

Definition atBol (multiline : bool) (s : mstate) : bool :=
  match prev s with
  | None => true
  | Some c => multiline && isLineTerminator c
  end.

Definition atEol (multiline : bool) (s : mstate) : bool :=
  match rest s with
  | [] => true
  | c :: _ => multiline && isLineTerminator c
  end.

(** The greedy star over a [body] matcher: one more iteration first, then
    the rest of the pattern.  An iteration that consumes nothing is rejected,
    so at most as many iterations happen as code units remain; [n] is that
    bound. *)
Fixpoint iterate {R : Type} (body : mstate -> (mstate -> option R) -> option R)
         (k : mstate -> option R) (n : nat) (s : mstate) {struct n} : option R :=
  match n with
  | O => k s
  | S n' =>
      match body s (fun s1 => if Nat.ltb (pos s) (pos s1)
                              then iterate body k n' s1 else None) with
      | Some x => Some x
      | None => k s
      end
  end.

Fixpoint rmatch {R : Type} (multiline : bool) (r : regex) (s : mstate)
         (k : mstate -> option R) {struct r} : option R :=
  match r with
  | Eps => k s
  | Chr p =>
      match rest s with
      | c :: cs =>
          if p c then k {| prev := Some c; rest := cs; pos := S (pos s); caps := caps s |}
          else None
      | [] => None
      end
  | Cat r1 r2 => rmatch multiline r1 s (fun s1 => rmatch multiline r2 s1 k)
  | Alt r1 r2 =>
      match rmatch multiline r1 s k with
      | Some x => Some x
      | None => rmatch multiline r2 s k
      end
  | Star r1 => iterate (rmatch multiline r1) k (List.length (rest s)) s
  | Bol => if atBol multiline s then k s else None
  | Eol => if atEol multiline s then k s else None
  | Grp i r1 =>
      rmatch multiline r1 s
        (fun s1 => k {| prev := prev s1; rest := rest s1; pos := pos s1;
                        caps := (i, firstn (pos s1 - pos s) (rest s)) :: caps s1 |})
  end.

(** A successful match: the matched text ([m[0]]) and the groups. *)
Record hit : Type := { whole : jsstring; groups : list (nat * jsstring) }.

(** [m[i]] for a group that took part in the match. *)
Definition group (i : nat) (h : hit) : jsstring :=
  match find (fun g => Nat.eqb (fst g) i) (groups h) with
  | Some g => snd g
  | None => []
  end.

(** One attempt to match at a position. *)
Definition exec_at (multiline : bool) (r : regex) (before : option N) (input : jsstring)
  : option hit :=
  rmatch multiline r {| prev := before; rest := input; pos := 0; caps := [] |}
         (fun s1 => Some {| whole := firstn (pos s1) input; groups := caps s1 |}).

(** The input cut at the successive matches of a global pattern: every code
    unit outside a match, and every match.  [skip] counts the code units of
    the current match that are still to be passed over.  After an empty match
    the search resumes one code unit further. *)
Inductive piece : Type :=
| Text (c : N)
| Hit (h : hit).

Fixpoint scan (multiline : bool) (r : regex) (before : option N) (skip : nat)
         (input : jsstring) {struct input} : list piece :=
  match input with
  | [] =>
      match skip with
      | S _ => []
      | O => match exec_at multiline r before [] with
             | Some h => [Hit h]
             | None => []
             end
      end
  | c :: input' =>
      match skip with
      | S n => scan multiline r (Some c) n input'
      | O =>
          match exec_at multiline r before input with
          | Some h =>
              Hit h :: match List.length (whole h) with
                       | O => Text c :: scan multiline r (Some c) 0 input'
                       | S n => scan multiline r (Some c) n input'
                       end
          | None => Text c :: scan multiline r (Some c) 0 input'
          end
      end
  end.

(** The matches among the pieces of a scan. *)
Definition hitsOf (ps : list piece) : list hit :=
  flat_map (fun p => match p with Hit h => [h] | Text _ => [] end) ps.

(** The matches of a global pattern in order: the results of calling
    [re.exec(input)] until it returns [null]. *)
Definition exec_all (multiline : bool) (r : regex) (input : jsstring) : list hit :=
  hitsOf (scan multiline r None 0 input).

(** [input.replace(re, f)] for a global pattern and a callback that may
    throw. *)
Definition replace (multiline : bool) (r : regex) (f : hit -> result jsstring)
           (input : jsstring) : result jsstring :=
  parts <- mapM (fun p => match p with Hit h => f h | Text c => Ok [c] end)
                (scan multiline r None 0 input) ;;
  Ok (List.concat parts).

(** [input.replace(re, newText)] for a global pattern and a replacement text
    without [$] patterns. *)
Definition replaceWith (multiline : bool) (r : regex) (newText : jsstring)
           (input : jsstring) : jsstring :=
  List.concat (map (fun p => match p with Hit _ => newText | Text c => [c] end)
                   (scan multiline r None 0 input)).

(** [s.match(re)] for a pattern without the [g] flag: the first match. *)
Definition String_match (multiline : bool) (r : regex) (s : jsstring) : option hit :=
  hd_error (exec_all multiline r s).

(** *** Pattern syntax *)

Definition Seq (rs : list regex) : regex := fold_right Cat Eps rs.
Definition Plus (r : regex) : regex := Cat r (Star r).
Definition Times (n : nat) (r : regex) : regex := Seq (repeat r n).
Definition Lit (s : string) : regex := Seq (map (fun c => Chr (N.eqb (cu c))) (list_ascii_of_string s)).

Definition inRange (lo hi : N) (c : N) : bool := ((lo <=? c) && (c <=? hi))%N.

Definition upper : regex := Chr (inRange 65 90).      (* [A-Z] *)
Definition lower : regex := Chr (inRange 97 122).     (* [a-z] *)
Definition digit : regex := Chr (inRange 48 57).      (* \d *)
Definition dot : regex := Chr (fun c => negb (isLineTerminator c)).   (* . *)
Definition newline : regex := Chr (N.eqb 10).         (* \n *)

(** [\s]: white space and line terminators. *)
Definition isSpace (c : N) : bool :=
  (inRange 9 13 c || (c =? 32) || (c =? 160) || (c =? 5760) || inRange 8192 8202 c
   || (c =? 8232) || (c =? 8233) || (c =? 8239) || (c =? 8287) || (c =? 12288)
   || (c =? 65279))%N.
Definition space : regex := Chr isSpace.

Definition notQuote : regex := Chr (fun c => negb (c =? 39)%N).    (* [^'] *)
Definition notRParen : regex := Chr (fun c => negb (c =? 41)%N).   (* [^)] *)
Definition plusMinus : regex := Chr (fun c => (c =? 43) || (c =? 45))%N.   (* [+-] *)

(* ===================================================================== *)
(** ** The patterns of the program *)
(* ===================================================================== *)

(** Line 19, flag [g]. *)
Definition FULL_2019 : regex :=
  Seq [upper; Times 2 lower; space; upper; Times 2 lower; space; Times 2 digit; space;
       Lit "2019"; space; Times 2 digit; Lit ":"; Times 2 digit; Lit ":"; Times 2 digit;
       space; Lit "GMT"; plusMinus; Times 4 digit; space;
       Lit "("; Plus notRParen; Lit ")"].

(** Line 36, no flag. *)
Definition dayRe : regex :=
  Seq [Bol; Grp 1 (Seq [upper; Times 2 lower]); Lit " ";
       Grp 2 (Seq [upper; Times 2 lower]); Lit " ";
       Grp 3 (Times 2 digit); Lit " "; Grp 4 (Times 4 digit); Lit " "].

(** Lines 79-85, flags [gm]. *)
Definition sanitizers : list regex :=
  [ Seq [Bol; Lit "mkdir"; Plus space; Lit "github_painter"; Star dot; Eol];
    Seq [Bol; Lit "cd"; Plus space; Lit "github_painter"; Star dot; Eol];
    Seq [Bol; Lit "git"; Plus space; Lit "init"; Star dot; Eol];
    Seq [Bol; Lit "git"; Plus space; Lit "remote"; Plus space; Lit "add"; Plus space;
         Lit "origin"; Star dot; Eol];
    Seq [Bol; Lit "git"; Plus space; Lit "pull"; Plus space; Lit "origin"; Star dot; Eol] ].

(** Lines 88-91, flags [gm]. *)
Definition msgRe : regex :=
  Seq [Alt Bol newline; Lit "git"; Plus space; Lit "commit"; Plus space; Lit "--date='";
       Star notQuote; Lit "'"; Plus space; Lit "-m"; Plus space; Lit "'";
       Grp 1 FULL_2019; Lit "'"].

(** Line 164, flags [gm]. *)
Definition echoRe : regex := Seq [Bol; Lit "echo"; Plus space; Lit "'"; Star dot; Eol].

(** Lines 169-172, flag [g]. *)
Definition commitRe : regex :=
  Seq [Grp 1 (Seq [Lit "git"; Plus space; Lit "commit"; Plus space; Lit "--date='"]);
       Grp 2 (Star notQuote);
       Grp 3 (Seq [Lit "'"; Plus space; Lit "-m"; Plus space; Lit "'"]);
       Grp 4 FULL_2019;
       Grp 5 (Lit "'")].

(* ===================================================================== *)
(** ** Date helpers of the program (lines 21-48) *)
(* ===================================================================== *)

Definition DOW : list jsstring := map js ["Sun"; "Mon"; "Tue"; "Wed"; "Thu"; "Fri"; "Sat"]%string.
Definition MON : list jsstring :=
  map js ["Jan"; "Feb"; "Mar"; "Apr"; "May"; "Jun"; "Jul"; "Aug"; "Sep"; "Oct"; "Nov"; "Dec"]%string.

Definition jsstring_eqb (a b : jsstring) : bool :=
  if list_eq_dec N.eq_dec a b then true else false.

(** [xs.indexOf(x)]: the first index holding [x], or [-1]. *)
Fixpoint indexOf (xs : list jsstring) (x : jsstring) : Z :=
  match xs with
  | [] => -1
  | y :: ys =>
      if jsstring_eqb y x then 0
      else let i := indexOf ys x in if i <? 0 then -1 else i + 1
  end.

(** [xs[i]] inside a template literal: an index out of range reads
    [undefined]. *)
Definition at_index (xs : list jsstring) (i : Z) : jsstring :=
  if i <? 0 then js "undefined" else nth (Z.to_nat i) xs (js "undefined").

Definition gridStartUTC (year : Z) : Z :=
  let jan1 := Date_UTC year 0 1 in
  let wd := WeekDay jan1 in
  jan1 - wd * 86400000.

Definition weekStartUTC (dayUTCms : Z) : Z :=
  let wd := WeekDay dayUTCms in
  dayUTCms - wd * 86400000.

Definition fmtUTCNoon (dayUTCms : Z) : jsstring :=
  let d := dayUTCms + 12 * 3600 * 1000 in
  let dow := at_index DOW (WeekDay d) in
  let mon := at_index MON (MonthFromTime d) in
  let dd := padStart2 (String_of_Z (DateFromTime d)) in
  let yyyy := String_of_Z (YearFromTime d) in
  dow ++ js " " ++ mon ++ js " " ++ dd ++ js " " ++ yyyy ++ js " 12:00:00 GMT+0000 (UTC)".

(** The number a string of decimal digits denotes ([+m[3]], [+m[4]]). *)
Definition digitsToNumber (s : jsstring) : Z :=
  fold_left (fun acc c => 10 * acc + (Z.of_N c - 48)) s 0.

(** Lines 34-40. *)
Definition parseFullDayUTC (s : jsstring) : result Z :=
  match String_match false dayRe s with
  | None => Throw (BadDate s)
  | Some m =>
      let monStr := group 2 m in
      let dd := digitsToNumber (group 3 m) in
      let yyyy := digitsToNumber (group 4 m) in
      Ok (Date_UTC yyyy (indexOf MON monStr) dd)
  end.

(* ===================================================================== *)
(** ** [main] (lines 65-179)

    [align] is the validated [--align] value, [now] the time value of
    [new Date()] and [text] the contents of the template.  The result is
    what the run writes to standard output, or the exception that ends it. *)
(* ===================================================================== *)

(** Lines 78-85: each pattern in turn blanks the lines it matches. *)
Definition sanitize (text : jsstring) : jsstring :=
  fold_left (fun input re => replaceWith true re [] input) sanitizers text.

(** Lines 92-93. *)
Definition gather (input : jsstring) : list jsstring :=
  map (group 1) (exec_all true msgRe input).

(** Line 102, the body of the map. *)
Definition dayIndex (start2019 : Z) (s : jsstring) : result Z :=
  t <- parseFullDayUTC s ;; Ok ((t - start2019) / 86400000).

(** Lines 155-158: the day a source day [t] is moved to. *)
Definition newDayUTC (start2019 windowStartUTC shift t : Z) : Z :=
  let oldIdx := (t - start2019) / 86400000 in
  let p := toColRow oldIdx in
  let newIdxFromWindow := fromColRow (col p + shift) (row p) in
  windowStartUTC + newIdxFromWindow * 86400000.

(** Lines 154-160. *)
Definition remapOne (start2019 windowStartUTC shift : Z) (fullStr : jsstring) : result jsstring :=
  t <- parseFullDayUTC fullStr ;;
  Ok (fmtUTCNoon (newDayUTC start2019 windowStartUTC shift t)).

(** Lines 163-166. *)
Definition replaceEcho (remap : jsstring -> result jsstring) (input : jsstring) : result jsstring :=
  replace true echoRe
          (fun line => replace false FULL_2019 (fun m => remap (whole m)) (whole line))
          input.

(** Lines 173-176, the callback: [(_, a, anyDate, b, msgDate, e) => ...]. *)
Definition commitCallback (remap : jsstring -> result jsstring) (m : hit) : result jsstring :=
  let a := group 1 m in
  let b := group 3 m in
  let msgDate := group 4 m in
  let e := group 5 m in
  mapped <- remap msgDate ;;
  Ok (a ++ mapped ++ b ++ mapped ++ e).

Definition replaceCommit (remap : jsstring -> result jsstring) (input : jsstring) : result jsstring :=
  replace false commitRe (commitCallback remap) input.

(** Lines 110-115: what the run derives from the clock. *)
Definition todayUTC (now : Z) : Z :=
  Date_UTC (YearFromTime now) (MonthFromTime now) (DateFromTime now).
Definition windowStartUTC (now : Z) : Z :=
  let thisSunUTC := weekStartUTC (todayUTC now) in
  thisSunUTC - (GRID_WEEKS - 1) * 7 * 86400000.
Definition todayRow (now : Z) : Z := WeekDay (todayUTC now).

Definition main (align : Align) (now : Z) (text : jsstring) : result jsstring :=
  let input := sanitize text in
  match gather input with
  | [] => Ok input
  | s :: msgs =>
      let start2019 := gridStartUTC 2019 in
      i <- dayIndex start2019 s ;;
      idxs <- mapM (dayIndex start2019) msgs ;;
      shift <- shiftCols align (todayRow now) (toColRow i) (map toColRow idxs) ;;
      let remap := remapOne start2019 (windowStartUTC now) shift in
      input <- replaceEcho remap input ;;
      replaceCommit remap input
  end.

(** *** The grid mapper under the names of the specification

    [toGrid] is the expression of lines 102-103 and 155-156, [fromGrid] the
    one of lines 157-158; days and origins are time values at midnight UTC. *)
Definition toGrid (day origin : Z) : ColRow := toColRow ((day - origin) / 86400000).
Definition fromGrid (pos : ColRow) (origin : Z) : Z :=
  origin + fromColRow (col pos) (row pos) * 86400000.

(* ===================================================================== *)
(** ** Vocabulary of the statements *)
(* ===================================================================== *)

(** The scenario of the specification: columns 10, 11, 12 with rows 1, 3, 5. *)
Definition scenarioHead : ColRow := {| col := 10; row := 1 |}.
Definition scenarioTail : list ColRow := [ {| col := 11; row := 3 |}; {| col := 12; row := 5 |} ].

(** The points that sit in the last column of the drawing on a weekday
    after today's. *)
Definition lateInLastColumn (today : Z) (p : ColRow) (ps : list ColRow) : bool :=
  existsb (fun q => (col q =? maxColOf p ps) && (row q >? today)) (p :: ps).

(** A pattern without capture groups. *)
Fixpoint nogroups (r : regex) : bool :=
  match r with
  | Grp _ _ => false
  | Cat r1 r2 | Alt r1 r2 => nogroups r1 && nogroups r2
  | Star r1 => nogroups r1
  | Eps | Chr _ | Bol | Eol => true
  end.

(** The shape that line 36 asks of the start of a literal: a capital and two
    small letters, twice, two digits and four digits, each token followed by
    one space.  The value is the four tokens. *)
Definition dayShape (s : jsstring) : option (jsstring * jsstring * jsstring * jsstring) :=
  match s with
  | w1 :: w2 :: w3 :: sp1 :: m1 :: m2 :: m3 :: sp2 :: d1 :: d2 :: sp3
       :: y1 :: y2 :: y3 :: y4 :: sp4 :: _ =>
      if inRange 65 90 w1 && inRange 97 122 w2 && inRange 97 122 w3 && (32 =? sp1)%N
         && inRange 65 90 m1 && inRange 97 122 m2 && inRange 97 122 m3 && (32 =? sp2)%N
         && inRange 48 57 d1 && inRange 48 57 d2 && (32 =? sp3)%N
         && inRange 48 57 y1 && inRange 48 57 y2 && inRange 48 57 y3 && inRange 48 57 y4
         && (32 =? sp4)%N
      then Some ([w1; w2; w3], [m1; m2; m3], [d1; d2], [y1; y2; y3; y4])
      else None
  | _ => None
  end.

(** [s1] is reached from [s] by consuming [w], with the captures untouched. *)
Definition advances (s s1 : mstate) (w : jsstring) : Prop :=
  rest s = w ++ rest s1 /\ pos s1 = (pos s + List.length w)%nat /\ caps s1 = caps s.

(** A line feed, and the commit line of a template. *)
Definition LF : jsstring := [10%N].
Definition commitLine (date msg : string) : jsstring :=
  js "git commit --date='" ++ js date ++ js "' -m '" ++ js msg ++ js "'".


(** A literal of a template, and the clock of a run on Thursday 2026-11-05. *)
Definition exLit : string := "Fri Mar 29 2019 00:00:00 GMT-0500 (Eastern Standard Time)".
Definition exNow : Z := 1793840400000.

(** A template of two commit lines whose days lie 54 columns apart:
    [Date.UTC] reads the 36th of December 2019 as the 5th of January 2020. *)
Definition wideText : jsstring :=
  commitLine "x" "Tue Jan 01 2019 00:00:00 GMT+0000 (UTC)" ++ LF
  ++ commitLine "x" "Sun Dec 36 2019 00:00:00 GMT+0000 (UTC)".

(** What the commit pass (lines 173-176) makes of the text that it is given:
    a code unit outside the matches, which it copies, or a match of the
    commit pattern together with the literal that it writes in place of the
    two dates. *)
Inductive segment : Type :=
| Plain (c : N)
| Commit (m : hit) (mapped : jsstring).

(** A segment as the pass finds it, and as it leaves it (line 175). *)
Definition segmentIn (s : segment) : jsstring :=
  match s with
  | Plain c => [c]
  | Commit m _ => whole m
  end.

Definition segmentOut (s : segment) : jsstring :=
  match s with
  | Plain c => [c]
  | Commit m mapped => group 1 m ++ mapped ++ group 3 m ++ mapped ++ group 5 m
  end.

(** The matches among the segments, in order. *)
Definition commitsOf (segs : list segment) : list hit :=
  flat_map (fun s => match s with Plain _ => [] | Commit m _ => [m] end) segs.

(** A commit construct whose [--date] value runs over a line break, with
    [echo] at the start of the second line; and a commit line that does not
    start its line. *)
Definition straddlingText : jsstring :=
  js "git commit --date='x" ++ LF ++ js "echo ' -m '" ++ js exLit ++ js "'".
Definition indentedText : jsstring := js " " ++ commitLine "x" exLit.

(* ===================================================================== *)
(** ** Command line (lines 53-74)

    [parseArgs] and the two checks with which [main] begins.  [argv] is
    [process.argv]; reading the file is left to the caller of [main]. *)
(* ===================================================================== *)

Module Cli.

(** The object that [parseArgs] builds; [template] is [undefined] until an
    argument is stored in it. *)
Record Args : Type := { align : jsstring; template : option jsstring }.

(** [s.startsWith(prefix)] *)
Definition startsWith (prefix s : jsstring) : bool :=
  jsstring_eqb (firstn (List.length prefix) s) prefix.

Definition isAlignFlag (arg : jsstring) : bool := startsWith (js "--align=") arg.

(** [!v] for a value that is [undefined] or a string: the empty string is
    falsy too. *)
Definition falsy (v : option jsstring) : bool :=
  match v with
  | None | Some [] => true
  | Some (_ :: _) => false
  end.

(** What lines 66-74 decide: one of the two [process.exit(2)], or the run
    goes on with a path and a mode. *)
Inductive start : Type :=
| Usage
| BadAlign
| Proceed (path : jsstring) (mode : Align).

(** The mode of a validated [align] string (lines 71, 126, 129, 132). *)
Definition alignOf (a : jsstring) : option Align :=
  if jsstring_eqb a (js "left") then Some AlignLeft
  else if jsstring_eqb a (js "right") then Some AlignRight
  else if jsstring_eqb a (js "center") then Some AlignCenter
  else None.

Section ParseArgs.

(** [String.prototype.toLowerCase], the Unicode lower-casing of the host. *)
Variable toLowerCase : jsstring -> jsstring.

(** The body of the loop of lines 55-61. *)
Definition step (args : Args) (arg : jsstring) : Args :=
  if isAlignFlag arg
  then {| align := toLowerCase (skipn 8 arg); template := template args |}
  else if falsy (template args)
       then {| align := align args; template := Some arg |}
       else args.

(** Lines 53-63. *)
Definition parseArgs (argv : list jsstring) : Args :=
  fold_left step (skipn 2 argv) {| align := js "left"; template := None |}.

(** Lines 66-74. *)
Definition entry (argv : list jsstring) : start :=
  let args := parseArgs argv in
  if falsy (template args) then Usage
  else match template args, alignOf (align args) with
       | Some path, Some mode => Proceed path mode
       | _, _ => BadAlign
       end.

End ParseArgs.

(** An argument that can serve as the template path. *)
Definition isPath (arg : jsstring) : bool :=
  negb (isAlignFlag arg) && negb (falsy (Some arg)).

End Cli.

(* ===================================================================== *)
(** ** Vocabulary of the further properties *)
(* ===================================================================== *)

(** Lines 126-139: the shift that enters the loop of line 143. *)
Definition shiftBeforeLoop (align : Align) (p : ColRow) (ps : list ColRow) : Z :=
  let minCol := minColOf p ps in
  let maxCol := maxColOf p ps in
  clampShift minCol maxCol (candidateShift align minCol maxCol (maxCol - minCol + 1)).

(** [lo, lo + 1, ..., lo + n - 1] *)
Definition zrange (lo n : Z) : list Z := map (fun k => lo + Z.of_nat k) (seq 0 (Z.to_nat n)).

(** [padStart2 (String_of_Z d)] is two digits that denote [d]. *)
Definition twoDigitsOk (d : Z) : bool :=
  match padStart2 (String_of_Z d) with
  | [a; b] => inRange 48 57 a && inRange 48 57 b && (digitsToNumber [a; b] =? d)
  | _ => false
  end.

(** [String_of_Z y] is four digits that denote [y]. *)
Definition fourDigitsOk (y : Z) : bool :=
  match String_of_Z y with
  | [a; b; c; e] =>
      inRange 48 57 a && inRange 48 57 b && inRange 48 57 c && inRange 48 57 e
      && (digitsToNumber [a; b; c; e] =? y)
  | _ => false
  end.

(** A literal of the source year with a known month name and a day of 1 to 31. *)
Definition realDay2019 (s : jsstring) : Prop :=
  exists w m d, dayShape s = Some (w, m, d, js "2019") /\ In m MON /\
                1 <= digitsToNumber d <= 31.

(** [l1] is [l2] with some elements left out. *)
Inductive Subseq {A : Type} : list A -> list A -> Prop :=
| Subseq_nil : Subseq [] []
| Subseq_drop (x : A) (l1 l2 : list A) : Subseq l1 l2 -> Subseq l1 (x :: l2)
| Subseq_keep (x : A) (l1 l2 : list A) : Subseq l1 l2 -> Subseq (x :: l1) (x :: l2).

(** [s1] is reached from [s] by consuming [w]. *)
Definition consumes (s s1 : mstate) (w : jsstring) : Prop :=
  rest s = w ++ rest s1 /\ pos s1 = (pos s + List.length w)%nat.

(* ===================================================================== *)
(** * Properties *)
(* ===================================================================== *)

(** ** The [Date] model against the standard

    [YearFromTime] is specified as the largest year that starts at or before
    the time value, [MonthFromTime] by the interval its day within the year
    falls in; a time value is the midnight of its year, month and date plus
    its time within the day. *)

Ltac div_mod_lia :=
  Z.div_mod_to_equations; Z.quot_rem_to_equations; lia.

(** The estimate of [YearFromDay] is adjusted to the right year. *)
Lemma YearFromDay_spec (d : Z) :
  DayFromYear (YearFromDay d) <= d < DayFromYear (YearFromDay d + 1).
Proof.
  unfold YearFromDay.
  destruct (DayFromYear (1970 + 400 * d / 146097 + 1) <=? d) eqn:E1;
    [|destruct (DayFromYear (1970 + 400 * d / 146097) <=? d) eqn:E2].
  - apply Z.leb_le in E1. split; [exact E1|].
    revert E1. unfold DayFromYear. div_mod_lia.
  - apply Z.leb_le in E2. apply Z.leb_gt in E1. lia.
  - apply Z.leb_gt in E2. split.
    + revert E2. unfold DayFromYear. div_mod_lia.
    + replace (1970 + 400 * d / 146097 - 1 + 1) with (1970 + 400 * d / 146097) by lia. exact E2.
Qed.

Lemma InLeapYear_range (y : Z) : InLeapYear y = 0 \/ InLeapYear y = 1.
Proof. unfold InLeapYear, DaysInYear, DayFromYear. div_mod_lia. Qed.

Lemma DayWithinYear_range (t : Z) :
  0 <= DayWithinYear t < 365 + InLeapYear (YearFromTime t).
Proof.
  unfold DayWithinYear, InLeapYear, DaysInYear, YearFromTime.
  pose proof (YearFromDay_spec (Day t)). lia.
Qed.

Ltac split_ltb :=
  match goal with
  | |- context [if ?a <? ?b then _ else _] =>
      let E := fresh "E" in
      destruct (a <? b) eqn:E;
      [apply Z.ltb_lt in E | apply Z.ltb_ge in E]
  end.

Ltac month_bounds :=
  repeat match goal with
         | |- context [monthStart ?l (?k + 1)] =>
             let v := eval vm_compute in (k + 1) in change (k + 1) with v
         | H : context [monthStart ?l (?k + 1)] |- _ =>
             let v := eval vm_compute in (k + 1) in change (k + 1) with v in H
         end;
  cbv beta iota delta [monthStart] in *; lia.

(** The month of a day is the one in which its day within the year falls. *)
Lemma MonthFromTime_spec (t : Z) :
  let leap := InLeapYear (YearFromTime t) in
  0 <= MonthFromTime t <= 11 /\
  monthStart leap (MonthFromTime t) <= DayWithinYear t < monthStart leap (MonthFromTime t + 1).
Proof.
  intros leap. unfold MonthFromTime. fold leap.
  pose proof (DayWithinYear_range t) as Hd. fold leap in Hd.
  pose proof (InLeapYear_range (YearFromTime t)) as Hl. fold leap in Hl.
  revert Hd Hl. generalize (DayWithinYear t) as d, leap as l. clear leap.
  intros d l Hd Hl.
  repeat (split_ltb; [month_bounds|]). month_bounds.
Qed.

Lemma DateFromTime_range (t : Z) : 1 <= DateFromTime t <= 31.
Proof.
  unfold DateFromTime. destruct (MonthFromTime_spec t) as [Hm Hs].
  pose proof (InLeapYear_range (YearFromTime t)) as Hl.
  revert Hm Hs Hl.
  generalize (DayWithinYear t) as d, (InLeapYear (YearFromTime t)) as l, (MonthFromTime t) as m.
  intros d l m Hm Hs Hl.
  assert (Hc : m = 0 \/ m = 1 \/ m = 2 \/ m = 3 \/ m = 4 \/ m = 5 \/ m = 6 \/ m = 7 \/ m = 8
               \/ m = 9 \/ m = 10 \/ m = 11) by lia.
  repeat (destruct Hc as [->|Hc]; [month_bounds|]). subst m. month_bounds.
Qed.

(** [Date.UTC] of the year, month and date of a time value is the midnight
    before it (for years outside 0..99). *)
Lemma MakeDay_of_time (t : Z) :
  MakeDay (YearFromTime t) (MonthFromTime t) (DateFromTime t) = Day t.
Proof.
  destruct (MonthFromTime_spec t) as [Hm _].
  unfold MakeDay, DateFromTime.
  replace (MonthFromTime t / 12) with 0 by (symmetry; apply Z.div_small; lia).
  rewrite Z.mod_small by lia. rewrite Z.add_0_r.
  unfold DayWithinYear. lia.
Qed.

Lemma todayUTC_spec (now : Z) : 0 <= now -> todayUTC now = Day now * 86400000.
Proof.
  intros H. unfold todayUTC, Date_UTC.
  assert (Hy : 1970 <= YearFromTime now).
  { unfold YearFromTime. pose proof (YearFromDay_spec (Day now)) as Hs.
    assert (0 <= Day now) by (unfold Day, msPerDay; apply Z.div_pos; lia).
    revert Hs. generalize (YearFromDay (Day now)) as y. intros y Hs.
    unfold DayFromYear in Hs. div_mod_lia. }
  replace ((0 <=? YearFromTime now) && (YearFromTime now <=? 99)) with false
    by (symmetry; apply andb_false_iff; right; apply Z.leb_gt; lia).
  now rewrite MakeDay_of_time.
Qed.

(** ** The grid mapper *)

Lemma toColRow_fromColRow (c r : Z) :
  0 <= c -> 0 <= r <= 6 -> toColRow (fromColRow c r) = {| col := c; row := r |}.
Proof.
  intros Hc Hr. unfold toColRow, fromColRow.
  assert (Hq : (c * 7 + r) / 7 = c) by (symmetry; apply (Z.div_unique (c * 7 + r) 7 c r); lia).
  assert (Hm : Z.rem (c * 7 + r) 7 = r).
  { rewrite Z.rem_mod_nonneg by lia.
    symmetry; apply (Z.mod_unique (c * 7 + r) 7 c r); lia. }
  now rewrite Hq, Hm.
Qed.

Lemma fromColRow_toColRow (i : Z) :
  0 <= i -> fromColRow (col (toColRow i)) (row (toColRow i)) = i.
Proof.
  intros Hi. unfold toColRow, fromColRow; simpl.
  rewrite Z.rem_mod_nonneg by lia.
  pose proof (Z.div_mod i 7 ltac:(lia)). lia.
Qed.

(** Row and column of an index that is not negative. *)
Lemma toColRow_range (i : Z) :
  0 <= i -> 0 <= col (toColRow i) /\ 0 <= row (toColRow i) <= 6.
Proof.
  intros Hi. unfold toColRow; simpl. rewrite Z.rem_mod_nonneg by lia.
  pose proof (Z.mod_pos_bound i 7 ltac:(lia)).
  pose proof (Z.div_pos i 7 Hi ltac:(lia)). lia.
Qed.

(** ** The loop of lines 143-145 *)

Lemma nudge_step (colRows : list ColRow) (minCol today s : Z) :
  nudge colRows minCol today s =
  if mustNudge colRows minCol today s then nudge colRows minCol today (s - 1) else s.
Proof.
  funelim (nudge colRows minCol today s).
  - rewrite G. reflexivity.
  - match goal with E : mustNudge _ _ _ _ = false |- _ => rewrite E end. reflexivity.
Qed.

(** Well-founded induction along the loop: a property that holds where the
    guard fails, and that an iteration hands back, holds of every run. *)
Lemma nudge_ind (colRows : list ColRow) (minCol today : Z) (P : Z -> Z -> Prop) :
  (forall s, mustNudge colRows minCol today s = false -> P s s) ->
  (forall s r, mustNudge colRows minCol today s = true -> P (s - 1) r -> P s r) ->
  forall s, P s (nudge colRows minCol today s).
Proof.
  intros Hexit Hiter s.
  remember (Z.to_nat (minCol + s)) as n eqn:Hn.
  revert s Hn. induction n as [n IH] using lt_wf_ind. intros s Hn.
  rewrite nudge_step. destruct (mustNudge colRows minCol today s) eqn:G.
  - apply Hiter; [assumption|].
    apply (IH (Z.to_nat (minCol + (s - 1)))); [|reflexivity].
    unfold mustNudge in G. apply andb_prop in G. destruct G as [_ G]. lia.
  - now apply Hexit.
Qed.

Lemma nudge_le (colRows : list ColRow) (minCol today s : Z) :
  nudge colRows minCol today s <= s.
Proof.
  apply (nudge_ind colRows minCol today (fun s r => r <= s)); intros; lia.
Qed.

Lemma nudge_lower (colRows : list ColRow) (minCol today s : Z) :
  0 <= minCol + s -> 0 <= minCol + nudge colRows minCol today s.
Proof.
  apply (nudge_ind colRows minCol today (fun s r => 0 <= minCol + s -> 0 <= minCol + r)).
  - intros; lia.
  - intros s0 r G IH _. apply IH.
    unfold mustNudge in G. apply andb_prop in G. destruct G as [_ G]. lia.
Qed.

(** At loop exit the guard is false. *)
Lemma nudge_exit (colRows : list ColRow) (minCol today s : Z) :
  mustNudge colRows minCol today (nudge colRows minCol today s) = false.
Proof.
  apply (nudge_ind colRows minCol today (fun _ r => mustNudge colRows minCol today r = false));
    auto.
Qed.

(** ** Minimum and maximum column *)

Lemma Math_min_spec (x : Z) (xs : list Z) :
  (forall y, In y (x :: xs) -> Math_min x xs <= y) /\ In (Math_min x xs) (x :: xs).
Proof.
  unfold Math_min. revert x. induction xs as [|a xs IH]; intros x; simpl.
  - split; [intros y [->|[]]; lia | now left].
  - destruct (IH (Z.min x a)) as [Hle Hin]. split.
    + intros y [->|[->|Hy]].
      * specialize (Hle _ (or_introl eq_refl)). lia.
      * specialize (Hle _ (or_introl eq_refl)). lia.
      * apply Hle. now right.
    + destruct Hin as [Hin|Hin]; [|now right; right].
      rewrite <- Hin. destruct (Z.min_spec x a) as [[_ ->]|[_ ->]]; auto.
Qed.

Lemma Math_max_spec (x : Z) (xs : list Z) :
  (forall y, In y (x :: xs) -> y <= Math_max x xs) /\ In (Math_max x xs) (x :: xs).
Proof.
  unfold Math_max. revert x. induction xs as [|a xs IH]; intros x; simpl.
  - split; [intros y [->|[]]; lia | now left].
  - destruct (IH (Z.max x a)) as [Hle Hin]. split.
    + intros y [->|[->|Hy]].
      * specialize (Hle _ (or_introl eq_refl)). lia.
      * specialize (Hle _ (or_introl eq_refl)). lia.
      * apply Hle. now right.
    + destruct Hin as [Hin|Hin]; [|now right; right].
      rewrite <- Hin. destruct (Z.max_spec x a) as [[_ ->]|[_ ->]]; auto.
Qed.

Lemma minColOf_le (p : ColRow) (ps : list ColRow) (q : ColRow) :
  In q (p :: ps) -> minColOf p ps <= col q.
Proof.
  intros Hq. apply (proj1 (Math_min_spec (col p) (map col ps))).
  change (In (col q) (map col (p :: ps))). now apply in_map.
Qed.

Lemma maxColOf_ge (p : ColRow) (ps : list ColRow) (q : ColRow) :
  In q (p :: ps) -> col q <= maxColOf p ps.
Proof.
  intros Hq. apply (proj1 (Math_max_spec (col p) (map col ps))).
  change (In (col q) (map col (p :: ps))). now apply in_map.
Qed.

Lemma minColOf_le_maxColOf (p : ColRow) (ps : list ColRow) :
  minColOf p ps <= maxColOf p ps.
Proof.
  pose proof (minColOf_le p ps p (or_introl eq_refl)).
  pose proof (maxColOf_ge p ps p (or_introl eq_refl)). lia.
Qed.

(** The shift that enters the loop lies between the two clamps. *)
Lemma clampShift_range (minCol maxCol s : Z) :
  maxCol - minCol + 1 <= GRID_WEEKS ->
  - minCol <= clampShift minCol maxCol s <= rightmostCol - maxCol.
Proof. unfold clampShift, rightmostCol, GRID_WEEKS. lia. Qed.


Lemma existsb_false_forall {A : Type} (f : A -> bool) (l : list A) :
  existsb f l = false -> forall x, In x l -> f x = false.
Proof.
  intros H x Hx. destruct (f x) eqn:E; [|reflexivity].
  assert (existsb f l = true) by (apply existsb_exists; eauto). congruence.
Qed.

(** A run of the aligner that returns went through the width check and
    the final check of line 146. *)
Lemma shiftCols_Ok (align : Align) (today : Z) (p : ColRow) (ps : list ColRow) (s : Z) :
  shiftCols align today p ps = Ok s ->
  maxColOf p ps - minColOf p ps + 1 <= GRID_WEEKS /\
  s = shiftAfterLoop align today p ps /\
  existsb (violatesFuture s today) (p :: ps) = false.
Proof.
  unfold shiftCols.
  destruct (maxColOf p ps - minColOf p ps + 1 >? GRID_WEEKS) eqn:W; [discriminate|].
  destruct (existsb (violatesFuture (shiftAfterLoop align today p ps) today) (p :: ps)) eqn:V;
    [discriminate|].
  intros [= <-]. repeat split; [lia | assumption].
Qed.

(** ** Claims about the window aligner *)

(** C1. No future placement: when the alignment step returns a shift, no
    position satisfies [violatesFuture] under it; a shifted point in column
    52 has a row that is at most [todayRow]. *)
Theorem no_future_placement (align : Align) (today : Z) (p : ColRow) (ps : list ColRow) (s : Z) :
  shiftCols align today p ps = Ok s ->
  existsb (violatesFuture s today) (p :: ps) = false /\
  forall q, In q (p :: ps) -> col q + s = 52 -> row q <= today.
Proof.
  intros H. apply shiftCols_Ok in H. destruct H as (_ & _ & V).
  split; [assumption|]. intros q Hq Hc.
  pose proof (existsb_false_forall _ _ V q Hq) as Hv.
  unfold violatesFuture, rightmostCol, GRID_WEEKS in Hv.
  apply andb_false_iff in Hv. destruct Hv as [Hv|Hv]; lia.
Qed.

Lemma no_future_placement_witness :
  shiftCols AlignRight 4 scenarioHead scenarioTail = Ok 39 /\
  (existsb (violatesFuture 39 4) (scenarioHead :: scenarioTail) = false /\
   forall q, In q (scenarioHead :: scenarioTail) -> col q + 39 = 52 -> row q <= 4).
Proof.
  split; [reflexivity|].
  apply (no_future_placement AlignRight 4 scenarioHead scenarioTail 39). reflexivity.
Defined.

(** C2. Window containment: for a drawing of at most 53 columns and every
    alignment mode, the shift that leaves the decrement loop keeps the
    leftmost column at 0 or more and the rightmost at 52 or less, hence
    every shifted column in [0, 52]. *)
Theorem window_containment (align : Align) (today : Z) (p : ColRow) (ps : list ColRow) :
  maxColOf p ps - minColOf p ps + 1 <= 53 ->
  let s := shiftAfterLoop align today p ps in
  0 <= minColOf p ps + s /\ maxColOf p ps + s <= 52 /\
  forall q, In q (p :: ps) -> 0 <= col q + s <= 52.
Proof.
  intros W s.
  pose proof (clampShift_range (minColOf p ps) (maxColOf p ps)
                (candidateShift align (minColOf p ps) (maxColOf p ps)
                                (maxColOf p ps - minColOf p ps + 1)) W) as Hc.
  unfold rightmostCol, GRID_WEEKS in Hc.
  assert (Hlo : 0 <= minColOf p ps + s) by (apply nudge_lower; lia).
  assert (Hhi : maxColOf p ps + s <= 52).
  { pose proof (nudge_le (p :: ps) (minColOf p ps) today
                         (clampShift (minColOf p ps) (maxColOf p ps)
                            (candidateShift align (minColOf p ps) (maxColOf p ps)
                                            (maxColOf p ps - minColOf p ps + 1)))) as Hle.
    fold (shiftAfterLoop align today p ps) in Hle. fold s in Hle. lia. }
  repeat split; try assumption.
  - pose proof (minColOf_le p ps q H). lia.
  - pose proof (maxColOf_ge p ps q H). lia.
Qed.

Lemma window_containment_witness :
  maxColOf scenarioHead scenarioTail - minColOf scenarioHead scenarioTail + 1 <= 53 /\
  let s := shiftAfterLoop AlignCenter 4 scenarioHead scenarioTail in
  0 <= minColOf scenarioHead scenarioTail + s /\ maxColOf scenarioHead scenarioTail + s <= 52 /\
  forall q, In q (scenarioHead :: scenarioTail) -> 0 <= col q + s <= 52.
Proof.
  split; [vm_compute; discriminate|].
  apply (window_containment AlignCenter 4 scenarioHead scenarioTail).
  vm_compute; discriminate.
Defined.

(** In a drawing that fits the window, the right-aligned candidate passes
    the clamp unchanged, and so does the left-aligned one. *)
Lemma clamp_right (minCol maxCol : Z) :
  maxCol - minCol + 1 <= GRID_WEEKS ->
  clampShift minCol maxCol (candidateShift AlignRight minCol maxCol (maxCol - minCol + 1))
  = rightmostCol - maxCol.
Proof. unfold clampShift, candidateShift, rightmostCol, GRID_WEEKS. lia. Qed.

Lemma clamp_left (minCol maxCol : Z) :
  maxCol - minCol + 1 <= GRID_WEEKS ->
  clampShift minCol maxCol (candidateShift AlignLeft minCol maxCol (maxCol - minCol + 1))
  = - minCol.
Proof. unfold clampShift, candidateShift, rightmostCol, GRID_WEEKS. lia. Qed.

Lemma violates_at_right (today : Z) (p : ColRow) (ps : list ColRow) :
  existsb (violatesFuture (rightmostCol - maxColOf p ps) today) (p :: ps)
  = lateInLastColumn today p ps.
Proof.
  unfold lateInLastColumn. generalize (maxColOf p ps) as m. intros m.
  induction (p :: ps) as [|q l IH]; [reflexivity|].
  cbn [existsb]. rewrite IH. f_equal. unfold violatesFuture. f_equal.
  destruct (col q =? m) eqn:E.
  - apply Z.eqb_eq. apply Z.eqb_eq in E. lia.
  - apply Z.eqb_neq. apply Z.eqb_neq in E. lia.
Qed.

Lemma no_violation_below (today s : Z) (p : ColRow) (ps : list ColRow) :
  maxColOf p ps + s < rightmostCol ->
  existsb (violatesFuture s today) (p :: ps) = false.
Proof.
  intros Hs. destruct (existsb (violatesFuture s today) (p :: ps)) eqn:E; [|reflexivity].
  apply existsb_exists in E. destruct E as (q & Hq & Hv).
  pose proof (maxColOf_ge p ps q Hq).
  unfold violatesFuture in Hv. apply andb_prop in Hv. destruct Hv as [Hv _].
  apply Z.eqb_eq in Hv. lia.
Qed.

(** C4, refuted as stated: in the scenario of the specification the run
    under [right] succeeds with shift 39, and the maximum shifted column is
    51, not 52. *)
Lemma right_boundary_counterexample :
  exists (today : Z) (p : ColRow) (ps : list ColRow) (s : Z),
    shiftCols AlignRight today p ps = Ok s /\ maxColOf p ps + s <> 52.
Proof.
  exists 4, scenarioHead, scenarioTail, 39. split; [reflexivity|].
  vm_compute. discriminate.
Qed.

(** C4, amended.  For every successfully aligned input: under [left] the
    minimum shifted column is 0; under [right] the maximum shifted column is
    52 when no point of the drawing's last column lies on a weekday after
    today's, and 51 when one does. *)
Theorem left_right_boundary (align : Align) (today : Z) (p : ColRow) (ps : list ColRow) (s : Z) :
  shiftCols align today p ps = Ok s ->
  (align = AlignLeft -> minColOf p ps + s = 0) /\
  (align = AlignRight ->
   maxColOf p ps + s = if lateInLastColumn today p ps then 51 else 52).
Proof.
  intros H. apply shiftCols_Ok in H. destruct H as (W & Hs & V).
  unfold shiftAfterLoop in Hs. split; intros ->.
  - rewrite clamp_left in Hs by assumption.
    rewrite nudge_step in Hs.
    replace (mustNudge (p :: ps) (minColOf p ps) today (- minColOf p ps)) with false in Hs.
    + lia.
    + unfold mustNudge. symmetry. apply andb_false_iff. right. lia.
  - rewrite clamp_right in Hs by assumption.
    rewrite nudge_step in Hs. unfold mustNudge in Hs.
    rewrite violates_at_right in Hs.
    destruct (lateInLastColumn today p ps) eqn:L; cbn [andb] in Hs.
    + destruct (minColOf p ps + (rightmostCol - maxColOf p ps) >? 0) eqn:G.
      * rewrite nudge_step in Hs. unfold mustNudge in Hs.
        rewrite no_violation_below in Hs by lia. cbn [andb] in Hs.
        unfold rightmostCol, GRID_WEEKS in Hs. lia.
      * (* the loop cannot move: the check of line 146 throws *)
        subst s. rewrite violates_at_right in V. congruence.
    + unfold rightmostCol, GRID_WEEKS in Hs. lia.
Qed.

Lemma left_right_boundary_witness :
  shiftCols AlignRight 4 scenarioHead scenarioTail = Ok 39 /\
  ((AlignRight = AlignLeft -> minColOf scenarioHead scenarioTail + 39 = 0) /\
   (AlignRight = AlignRight ->
    maxColOf scenarioHead scenarioTail + 39 =
    if lateInLastColumn 4 scenarioHead scenarioTail then 51 else 52)).
Proof.
  split; [reflexivity|].
  apply (left_right_boundary AlignRight 4 scenarioHead scenarioTail 39). reflexivity.
Defined.

Lemma shiftCols_too_wide (align : Align) (today : Z) (p : ColRow) (ps : list ColRow) :
  maxColOf p ps - minColOf p ps + 1 > 53 ->
  shiftCols align today p ps = Throw (DrawingTooWide (maxColOf p ps - minColOf p ps + 1)).
Proof.
  intros W. unfold shiftCols.
  replace (maxColOf p ps - minColOf p ps + 1 >? GRID_WEEKS) with true; [reflexivity|].
  symmetry. unfold GRID_WEEKS. lia.
Qed.

(** C5. A drawing wider than 53 columns: the aligner throws
    [DrawingTooWide] whatever the alignment mode and before any mode is
    looked at, and a run whose extracted positions these are ends with that
    exception, writing nothing. *)
Theorem too_wide_fails (p : ColRow) (ps : list ColRow) :
  maxColOf p ps - minColOf p ps + 1 > 53 ->
  (forall (align : Align) (today : Z),
      shiftCols align today p ps
      = Throw (DrawingTooWide (maxColOf p ps - minColOf p ps + 1))) /\
  (forall (align : Align) (now : Z) (text s : jsstring) (msgs : list jsstring)
          (i : Z) (idxs : list Z),
      gather (sanitize text) = s :: msgs ->
      dayIndex (gridStartUTC 2019) s = Ok i ->
      mapM (dayIndex (gridStartUTC 2019)) msgs = Ok idxs ->
      toColRow i = p -> map toColRow idxs = ps ->
      main align now text = Throw (DrawingTooWide (maxColOf p ps - minColOf p ps + 1))).
Proof.
  intros W. split.
  - intros align today. now apply shiftCols_too_wide.
  - intros align now text s msgs i idxs Hg Hi Hidxs Hp Hps.
    unfold main. rewrite Hg, Hi. cbn [bind]. rewrite Hidxs. cbn [bind].
    rewrite Hp, Hps, shiftCols_too_wide by assumption. reflexivity.
Qed.

Lemma too_wide_fails_witness :
  maxColOf {| col := 0; row := 2 |} [ {| col := 53; row := 0 |} ]
  - minColOf {| col := 0; row := 2 |} [ {| col := 53; row := 0 |} ] + 1 = 54 /\
  forall align : Align,
    shiftCols align 4 {| col := 0; row := 2 |} [ {| col := 53; row := 0 |} ]
    = Throw (DrawingTooWide 54) /\
    main align exNow wideText = Throw (DrawingTooWide 54).
Proof.
  split; [vm_compute; reflexivity|]. intros align.
  destruct (too_wide_fails {| col := 0; row := 2 |} [ {| col := 53; row := 0 |} ])
    as [Ha Hm]; [vm_compute; reflexivity|].
  split; [apply Ha|].
  apply (Hm align exNow wideText
            (js "Tue Jan 01 2019 00:00:00 GMT+0000 (UTC)")
            [js "Sun Dec 36 2019 00:00:00 GMT+0000 (UTC)"] 2 [371]);
    vm_compute; reflexivity.
Defined.

(** C8. The scenario: columns 10, 11, 12 with rows 1, 3, 5, [todayRow] 4,
    mode [right].  The candidate 40 survives the clamp and puts (12, 5) in
    column 52 on a row after today's; the loop exits at 39, where no point
    is in column 52, and the run returns 39. *)
Theorem scenario_right_shift_39 :
  minColOf scenarioHead scenarioTail = 10 /\
  maxColOf scenarioHead scenarioTail = 12 /\
  candidateShift AlignRight 10 12 3 = 40 /\
  clampShift 10 12 40 = 40 /\
  violatesFuture 40 4 {| col := 12; row := 5 |} = true /\
  mustNudge (scenarioHead :: scenarioTail) 10 4 40 = true /\
  mustNudge (scenarioHead :: scenarioTail) 10 4 39 = false /\
  nudge (scenarioHead :: scenarioTail) 10 4 40 = 39 /\
  map (fun q => col q + 39) (scenarioHead :: scenarioTail) = [49; 50; 51] /\
  shiftCols AlignRight 4 scenarioHead scenarioTail = Ok 39.
Proof. repeat split; reflexivity. Qed.

(** ** Claims about the grid mapper *)

Lemma fromGrid_toGrid (d o : Z) :
  o <= d -> (d - o) mod 86400000 = 0 -> fromGrid (toGrid d o) o = d.
Proof.
  intros Hle Hday. unfold fromGrid, toGrid.
  assert (Hi : 0 <= (d - o) / 86400000) by (apply Z.div_pos; lia).
  rewrite fromColRow_toColRow by assumption.
  pose proof (Z.div_mod (d - o) 86400000 ltac:(lia)). lia.
Qed.

(** C3. The grid maps are exact inverses: [fromColRow] after [toColRow]
    gives back every day index that is not negative, [toColRow] after
    [fromColRow] gives back every column that is not negative with a row in
    0..6, and so a calendar day [d] on or after the origin [o] (both at
    midnight UTC) comes back from its grid position. *)
Theorem grid_round_trip (i c r d o : Z) :
  0 <= i -> 0 <= c -> 0 <= r <= 6 -> o <= d -> (d - o) mod 86400000 = 0 ->
  fromColRow (col (toColRow i)) (row (toColRow i)) = i /\
  toColRow (fromColRow c r) = {| col := c; row := r |} /\
  fromGrid (toGrid d o) o = d.
Proof.
  intros Hi Hc Hr Hod Hday. repeat split.
  - now apply fromColRow_toColRow.
  - now apply toColRow_fromColRow.
  - now apply fromGrid_toGrid.
Qed.

Lemma grid_round_trip_witness :
  fromColRow (col (toColRow 89)) (row (toColRow 89)) = 89 /\
  toColRow (fromColRow 12 5) = {| col := 12; row := 5 |} /\
  fromGrid (toGrid (Date_UTC 2019 2 29) (gridStartUTC 2019)) (gridStartUTC 2019)
  = Date_UTC 2019 2 29.
Proof.
  apply (grid_round_trip 89 12 5 (Date_UTC 2019 2 29) (gridStartUTC 2019));
    vm_compute; try split; congruence.
Defined.

(** ** Scanning and replacing *)

(** Where a pattern matches nowhere, the scan is the input itself. *)
Lemma scan_without_hit (multiline : bool) (r : regex) (input : jsstring) :
  forall before : option N,
    hitsOf (scan multiline r before 0 input) = [] ->
    scan multiline r before 0 input = map Text input.
Proof.
  induction input as [|c input IH]; intros before H; cbn [scan] in *.
  - destruct (exec_at multiline r before []); [discriminate H | reflexivity].
  - destruct (exec_at multiline r before (c :: input)); [discriminate H|].
    cbn [map]. f_equal. apply IH. exact H.
Qed.

Lemma mapM_texts (f : hit -> result jsstring) (input : jsstring) :
  mapM (fun p => match p with Hit h => f h | Text c => Ok [c] end) (map Text input)
  = Ok (map (fun c => [c]) input).
Proof.
  induction input as [|c input IH]; [reflexivity|].
  cbn [map mapM]. rewrite IH. reflexivity.
Qed.

Lemma concat_singletons {A : Type} (l : list A) : List.concat (map (fun c => [c]) l) = l.
Proof. induction l as [|a l IH]; [reflexivity|]. cbn. now rewrite IH. Qed.

(** [replace] leaves a text without a match as it is. *)
Lemma replace_without_hit (multiline : bool) (r : regex) (f : hit -> result jsstring)
      (input : jsstring) :
  exec_all multiline r input = [] -> replace multiline r f input = Ok input.
Proof.
  intros H. unfold replace. rewrite (scan_without_hit multiline r input None H).
  rewrite mapM_texts. cbn [bind]. now rewrite concat_singletons.
Qed.

Lemma replaceWith_without_hit (multiline : bool) (r : regex) (newText input : jsstring) :
  exec_all multiline r input = [] -> replaceWith multiline r newText input = input.
Proof.
  intros H. unfold replaceWith. rewrite (scan_without_hit multiline r input None H).
  rewrite map_map. apply concat_singletons.
Qed.

Lemma sanitize_without_hit (text : jsstring) :
  (forall re, In re sanitizers -> exec_all true re text = []) -> sanitize text = text.
Proof.
  unfold sanitize. induction sanitizers as [|re res IH]; intros H; [reflexivity|].
  cbn [fold_left]. rewrite replaceWith_without_hit by (apply H; now left).
  apply IH. intros re' Hre'. apply H. now right.
Qed.

(** ** Claims about [main] *)

(** C6, refuted as stated: the text [git init] holds no date literal at
    all, and the run writes the empty text, not the input. *)
Lemma passthrough_counterexample :
  exists text : jsstring,
    exec_all false FULL_2019 text = [] /\ gather text = [] /\
    forall (align : Align) (now : Z),
      main align now text = Ok [] /\ main align now text <> Ok text.
Proof.
  exists (js "git init"). repeat split; try (vm_compute; reflexivity).
  vm_compute. discriminate.
Qed.

(** C6, amended.  The date literals are gathered from the sanitized text,
    that is the input in which the lines of the five setup commands are
    blanked.  When the sanitized text holds no commit-message date
    literal, the run ends without error and writes the sanitized text; this
    is the input itself, character for character, when no setup command
    occurs in it. *)
Theorem passthrough (align : Align) (now : Z) (text : jsstring) :
  gather (sanitize text) = [] ->
  main align now text = Ok (sanitize text) /\
  ((forall re, In re sanitizers -> exec_all true re text = []) ->
   main align now text = Ok text).
Proof.
  intros H.
  assert (Hm : main align now text = Ok (sanitize text)) by (unfold main; now rewrite H).
  split; [exact Hm|]. intros Hs. rewrite Hm. now rewrite sanitize_without_hit.
Qed.

Lemma passthrough_witness :
  gather (sanitize (js "echo hi")) = [] /\
  main AlignCenter 0 (js "echo hi") = Ok (sanitize (js "echo hi")) /\
  main AlignCenter 0 (js "echo hi") = Ok (js "echo hi").
Proof.
  assert (H0 : gather (sanitize (js "echo hi")) = []) by (vm_compute; reflexivity).
  destruct (passthrough AlignCenter 0 (js "echo hi") H0) as [Hs Hi].
  split; [exact H0 | split; [exact Hs|]]. apply Hi.
  intros re Hre.
  repeat (destruct Hre as [<-|Hre]; [vm_compute; reflexivity|]). destruct Hre.
Defined.

(** ** The day pattern of line 36 *)

(** Without the [m] flag, [^] holds at the start of the string only. *)
Lemma dayRe_not_inside (c : N) (input : jsstring) : exec_at false dayRe (Some c) input = None.
Proof. reflexivity. Qed.

Lemma scan_dayRe_inside (input : jsstring) :
  forall c : N, hitsOf (scan false dayRe (Some c) 0 input) = [].
Proof.
  induction input as [|a input IH]; intros c; cbn [scan]; rewrite dayRe_not_inside.
  - reflexivity.
  - cbn [hitsOf flat_map app]. apply IH.
Qed.

Lemma exec_dayRe_nil : exec_at false dayRe None [] = None.
Proof. reflexivity. Qed.

Lemma String_match_dayRe (s : jsstring) :
  String_match false dayRe s = exec_at false dayRe None s.
Proof.
  unfold String_match, exec_all. destruct s as [|c s]; cbn [scan].
  - rewrite exec_dayRe_nil. reflexivity.
  - destruct (exec_at false dayRe None (c :: s)) as [h|]; [reflexivity|].
    cbn [hitsOf flat_map app]. fold (hitsOf (scan false dayRe (Some c) 0 s)).
    now rewrite scan_dayRe_inside.
Qed.

Ltac split_tests :=
  cbv beta iota;
  repeat (match goal with
          | |- (if ?b then _ else _) = _ => destruct b; cbn [andb]; cbv beta iota
          end);
  reflexivity.

(** The pattern matches exactly the strings of the shape, and captures the
    four tokens. *)
Lemma exec_dayRe (s : jsstring) :
  exec_at false dayRe None s =
  match dayShape s with
  | Some (w, m, d, y) =>
      Some {| whole := firstn 16 s;
              groups := [(4%nat, y); (3%nat, d); (2%nat, m); (1%nat, w)] |}
  | None => None
  end.
Proof.
  unfold exec_at, dayRe, upper, lower, digit, dayShape.
  lazy -[inRange N.eqb andb].
  do 16 (destruct s as [|? s]; [split_tests|]). split_tests.
Qed.

Lemma parseFullDayUTC_shape (s : jsstring) :
  parseFullDayUTC s =
  match dayShape s with
  | Some (_, m, d, y) => Ok (Date_UTC (digitsToNumber y) (indexOf MON m) (digitsToNumber d))
  | None => Throw (BadDate s)
  end.
Proof.
  unfold parseFullDayUTC. rewrite String_match_dayRe, exec_dayRe.
  destruct (dayShape s) as [[[[w m] d] y]|]; reflexivity.
Qed.

(** A literal of the shape whose month token is one of the twelve names
    parses to midnight UTC of the day it states. *)
Lemma parseFullDayUTC_known_month (s w m d y : jsstring) :
  dayShape s = Some (w, m, d, y) -> In m MON ->
  parseFullDayUTC s = Ok (Date_UTC (digitsToNumber y) (indexOf MON m) (digitsToNumber d))
  /\ 0 <= indexOf MON m <= 11.
Proof.
  intros Hs Hm. rewrite parseFullDayUTC_shape, Hs. split; [reflexivity|].
  repeat (destruct Hm as [<-|Hm]; [vm_compute; split; discriminate|]). destruct Hm.
Qed.

(** ** Claims about the date parser *)

(** C7, refuted as stated: a literal with the unknown month name [Foo] is
    parsed into a day value (month index -1, the December before); so are a
    literal whose weekday token names no weekday and one whose day does not
    exist. *)
Lemma parse_counterexample :
  indexOf MON (js "Foo") = -1 /\
  parseFullDayUTC (js "Thu Foo 24 2019 00:00:00 GMT-0500 (Eastern Standard Time)")
  = Ok (Date_UTC 2018 11 24) /\
  parseFullDayUTC (js "Xyz Jan 24 2019 00:00:00 GMT-0500 (Eastern Standard Time)")
  = Ok (Date_UTC 2019 0 24) /\
  parseFullDayUTC (js "Thu Feb 31 2019 00:00:00 GMT-0500 (Eastern Standard Time)")
  = Ok (Date_UTC 2019 2 3).
Proof. repeat split; vm_compute; reflexivity. Qed.

(** C7, amended.  For every literal string that does not start with the
    shape of the calendar-literal grammar (a capital and two small letters
    for the weekday, the same for the month, a two-digit day and a
    four-digit year, each followed by one space), parsing fails with the
    [Bad date] error rather than producing a day value. *)
Theorem parse_rejects_bad_shape (s : jsstring) :
  dayShape s = None -> parseFullDayUTC s = Throw (BadDate s).
Proof. intros H. now rewrite parseFullDayUTC_shape, H. Qed.

Lemma parse_rejects_bad_shape_witness :
  dayShape (js "Thu jan 24 2019 00:00:00 GMT-0500 (Eastern Standard Time)") = None /\
  parseFullDayUTC (js "Thu jan 24 2019 00:00:00 GMT-0500 (Eastern Standard Time)")
  = Throw (BadDate (js "Thu jan 24 2019 00:00:00 GMT-0500 (Eastern Standard Time)")).
Proof.
  split; [vm_compute; reflexivity|].
  apply (parse_rejects_bad_shape
           (js "Thu jan 24 2019 00:00:00 GMT-0500 (Eastern Standard Time)")).
  vm_compute; reflexivity.
Defined.

(** ** Weekdays of the days that the run computes *)

Lemma Date_UTC_midnight (y m d : Z) : Date_UTC y m d mod 86400000 = 0.
Proof. unfold Date_UTC, msPerDay. apply Z.mod_mul. lia. Qed.

Lemma parseFullDayUTC_midnight (s : jsstring) (t : Z) :
  parseFullDayUTC s = Ok t -> t mod 86400000 = 0.
Proof.
  rewrite parseFullDayUTC_shape. destruct (dayShape s) as [[[[w m] d] y]|]; [|discriminate].
  intros [= <-]. apply Date_UTC_midnight.
Qed.

(** The week of a day starts on a Sunday, at midnight. *)
Lemma weekStartUTC_sunday (t : Z) :
  t mod 86400000 = 0 ->
  weekStartUTC t mod 86400000 = 0 /\ WeekDay (weekStartUTC t) = 0.
Proof.
  intros Ht. unfold weekStartUTC, WeekDay, Day, msPerDay. div_mod_lia.
Qed.

Lemma gridStartUTC_sunday (year : Z) :
  gridStartUTC year mod 86400000 = 0 /\ WeekDay (gridStartUTC year) = 0.
Proof.
  pose proof (Date_UTC_midnight year 0 1) as Ht. revert Ht.
  unfold gridStartUTC. generalize (Date_UTC year 0 1) as t. intros t Ht.
  unfold WeekDay, Day, msPerDay. div_mod_lia.
Qed.

Lemma windowStartUTC_sunday (now : Z) :
  windowStartUTC now mod 86400000 = 0 /\ WeekDay (windowStartUTC now) = 0.
Proof.
  unfold windowStartUTC.
  destruct (weekStartUTC_sunday (todayUTC now) (Date_UTC_midnight _ _ _)) as [Hm Hw].
  revert Hm Hw. generalize (weekStartUTC (todayUTC now)) as t. intros t Hm Hw.
  unfold WeekDay, Day, msPerDay, GRID_WEEKS in *. div_mod_lia.
Qed.

(** Moving a day by whole columns between two grids that start on a Sunday
    keeps its weekday; so does the step to noon. *)
Lemma newDayUTC_weekday (start win shift t : Z) :
  start mod 86400000 = 0 -> WeekDay start = 0 ->
  win mod 86400000 = 0 -> WeekDay win = 0 ->
  t mod 86400000 = 0 ->
  newDayUTC start win shift t mod 86400000 = 0 /\
  WeekDay (newDayUTC start win shift t) = WeekDay t /\
  WeekDay (newDayUTC start win shift t + 12 * 3600 * 1000) = WeekDay t.
Proof.
  unfold newDayUTC, toColRow, fromColRow, WeekDay, Day, msPerDay; cbn [col row].
  intros Hs Hsw Hw Hww Ht. div_mod_lia.
Qed.

(** ** Claims about the remapper *)

Lemma newDayUTC_fromGrid (start win shift t : Z) :
  newDayUTC start win shift t
  = fromGrid {| col := col (toGrid t start) + shift; row := row (toGrid t start) |} win.
Proof. reflexivity. Qed.

Lemma toGrid_newDayUTC (start win shift t : Z) :
  start <= t -> 0 <= col (toGrid t start) + shift ->
  toGrid (newDayUTC start win shift t) win
  = {| col := col (toGrid t start) + shift; row := row (toGrid t start) |}.
Proof.
  intros Hle Hc. rewrite newDayUTC_fromGrid. unfold fromGrid at 1. unfold toGrid at 1.
  cbn [col row].
  match goal with |- toColRow (?a / _) = _ =>
    replace a with (fromColRow (col (toGrid t start) + shift) (row (toGrid t start)) * 86400000)
      by lia end.
  rewrite Z.div_mul by lia.
  apply toColRow_fromColRow; [assumption|].
  apply toColRow_range. apply Z.div_pos; lia.
Qed.

(** C9. Row preservation: for every shift (hence every alignment mode) and
    every literal that parses, [remapOne] hands [fromColRow] the source
    column plus the shift and the source row unchanged; the remapped date
    falls on the weekday of the source date, and for a source day on or
    after the 2019 grid start and a shifted column that is not negative its
    position in the window grid is the source position moved by the shift
    along the columns only. *)
Theorem row_preservation (now shift : Z) (fullStr : jsstring) (t : Z) :
  parseFullDayUTC fullStr = Ok t ->
  let start2019 := gridStartUTC 2019 in
  let p := toGrid t start2019 in
  let t' := fromGrid {| col := col p + shift; row := row p |} (windowStartUTC now) in
  remapOne start2019 (windowStartUTC now) shift fullStr = Ok (fmtUTCNoon t') /\
  WeekDay t' = WeekDay t /\
  WeekDay (t' + 12 * 3600 * 1000) = WeekDay t /\
  (start2019 <= t -> 0 <= col p + shift ->
   toGrid t' (windowStartUTC now) = {| col := col p + shift; row := row p |}).
Proof.
  intros Hp.
  destruct (gridStartUTC_sunday 2019) as [Hs Hsw].
  destruct (windowStartUTC_sunday now) as [Hw Hww].
  pose proof (parseFullDayUTC_midnight _ _ Hp) as Ht.
  destruct (newDayUTC_weekday (gridStartUTC 2019) (windowStartUTC now) shift t
                              Hs Hsw Hw Hww Ht) as (_ & Hd & Hn).
  unfold remapOne; rewrite Hp; cbn [bind].
  revert Hd Hn. generalize (gridStartUTC 2019) as start, (windowStartUTC now) as win.
  intros start win Hd Hn; cbv zeta.
  rewrite <- !newDayUTC_fromGrid.
  repeat split; try assumption.
  intros Hle Hc; now apply toGrid_newDayUTC.
Qed.

Lemma row_preservation_witness :
  parseFullDayUTC (js "Fri Mar 29 2019 00:00:00 GMT-0500 (Eastern Standard Time)")
  = Ok 1553817600000 /\
  let now := 1793840400000 in
  let start2019 := gridStartUTC 2019 in
  let p := toGrid 1553817600000 start2019 in
  let t' := fromGrid {| col := col p + 39; row := row p |} (windowStartUTC now) in
  remapOne start2019 (windowStartUTC now) 39
           (js "Fri Mar 29 2019 00:00:00 GMT-0500 (Eastern Standard Time)")
  = Ok (fmtUTCNoon t') /\
  WeekDay t' = WeekDay 1553817600000 /\
  WeekDay (t' + 12 * 3600 * 1000) = WeekDay 1553817600000 /\
  (start2019 <= 1553817600000 -> 0 <= col p + 39 ->
   toGrid t' (windowStartUTC now) = {| col := col p + 39; row := row p |}).
Proof.
  split; [vm_compute; reflexivity|].
  apply (row_preservation 1793840400000 39
           (js "Fri Mar 29 2019 00:00:00 GMT-0500 (Eastern Standard Time)") 1553817600000).
  vm_compute; reflexivity.
Defined.

(** ** What a successful match consumed and captured *)

Lemma advances_refl (s : mstate) : advances s s [].
Proof. repeat split. cbn. lia. Qed.

Lemma advances_trans (s s1 s2 : mstate) (w1 w2 : jsstring) :
  advances s s1 w1 -> advances s1 s2 w2 -> advances s s2 (w1 ++ w2).
Proof.
  intros (R1 & P1 & C1) (R2 & P2 & C2). repeat split.
  - now rewrite R1, R2, app_assoc.
  - rewrite length_app. lia.
  - congruence.
Qed.

Section Success.
Context {R : Type} (multiline : bool).

(** A successful run of the star is a successful run of the rest of the
    pattern from some later position. *)
Lemma iterate_success (body : mstate -> (mstate -> option R) -> option R) :
  (forall s k x, body s k = Some x -> exists s1 w, advances s s1 w /\ k s1 = Some x) ->
  forall n s k x, iterate body k n s = Some x ->
                  exists s1 w, advances s s1 w /\ k s1 = Some x.
Proof.
  intros Hbody n. induction n as [|n IH]; intros s k x H; cbn [iterate] in H.
  - exists s, []. split; [apply advances_refl | exact H].
  - destruct (body s _) as [y|] eqn:E.
    + injection H as ->. apply Hbody in E. destruct E as (s1 & w1 & A1 & E).
      destruct (Nat.ltb (pos s) (pos s1)); [|discriminate].
      apply IH in E. destruct E as (s2 & w2 & A2 & E).
      exists s2, (w1 ++ w2). split; [eapply advances_trans; eassumption | exact E].
    + exists s, []. split; [apply advances_refl | exact H].
Qed.

Lemma rmatch_success (r : regex) :
  nogroups r = true ->
  forall s (k : mstate -> option R) x,
    rmatch multiline r s k = Some x ->
    exists s1 w, advances s s1 w /\ k s1 = Some x.
Proof.
  induction r as [|p|r1 IH1 r2 IH2|r1 IH1 r2 IH2|r1 IH1| | |i r1 IH1];
    intros G s k x H; cbn [rmatch nogroups] in *.
  - exists s, []. split; [apply advances_refl | exact H].
  - destruct s as [pv rs ps cs]; cbn [rest pos caps prev] in *.
    destruct rs as [|c rs]; [discriminate|].
    destruct (p c); [|discriminate].
    eexists _, [c]. split; [|exact H]. repeat split. cbn. lia.
  - apply andb_prop in G. destruct G as [G1 G2].
    apply (IH1 G1) in H. destruct H as (s1 & w1 & A1 & H).
    apply (IH2 G2) in H. destruct H as (s2 & w2 & A2 & H).
    exists s2, (w1 ++ w2). split; [eapply advances_trans; eassumption | exact H].
  - apply andb_prop in G. destruct G as [G1 G2].
    destruct (rmatch multiline r1 s k) as [y|] eqn:E.
    + injection H as ->. now apply (IH1 G1) in E.
    + now apply (IH2 G2) in H.
  - eapply iterate_success; [|exact H]. intros s0 k0 x0. apply (IH1 G).
  - destruct (atBol multiline s); [|discriminate].
    exists s, []. split; [apply advances_refl | exact H].
  - destruct (atEol multiline s); [|discriminate].
    exists s, []. split; [apply advances_refl | exact H].
  - discriminate.
Qed.

(** A group around a pattern without groups records what was consumed. *)
Lemma rmatch_group (i : nat) (r : regex) :
  nogroups r = true ->
  forall s (k : mstate -> option R) x,
    rmatch multiline (Grp i r) s k = Some x ->
    exists s1 w,
      rest s = w ++ rest s1 /\ pos s1 = (pos s + List.length w)%nat /\
      caps s1 = (i, w) :: caps s /\ k s1 = Some x.
Proof.
  intros G s k x H. cbn [rmatch] in H.
  apply (rmatch_success r G) in H. destruct H as (s1 & w & (Hr & Hp & Hc) & H).
  eexists _, w. repeat split; [| | |exact H]; cbn [rest pos caps].
  - exact Hr.
  - exact Hp.
  - rewrite Hr, Hp, Hc. f_equal. f_equal.
    replace (pos s + List.length w - pos s)%nat with (List.length w + 0)%nat by lia.
    rewrite firstn_app_2. cbn. apply app_nil_r.
Qed.
End Success.

Lemma rmatch_Cat {R : Type} (multiline : bool) (r1 r2 : regex) (s : mstate)
      (k : mstate -> option R) :
  rmatch multiline (Cat r1 r2) s k
  = rmatch multiline r1 s (fun s1 => rmatch multiline r2 s1 k).
Proof. reflexivity. Qed.

Lemma rmatch_Eps {R : Type} (multiline : bool) (s : mstate) (k : mstate -> option R) :
  rmatch multiline Eps s k = k s.
Proof. reflexivity. Qed.

Ltac next_group H s w R P C :=
  rewrite rmatch_Cat in H; apply rmatch_group in H; [|reflexivity];
  destruct H as (s & w & R & P & C & H); cbv beta in H.

(** Every match of the commit pattern is its five groups side by side. *)
Lemma exec_commitRe (before : option N) (input : jsstring) (h : hit) :
  exec_at false commitRe before input = Some h ->
  exists a anyDate b msgDate e,
    whole h = a ++ anyDate ++ b ++ msgDate ++ e /\
    groups h = [(5%nat, e); (4%nat, msgDate); (3%nat, b); (2%nat, anyDate); (1%nat, a)].
Proof.
  unfold exec_at, commitRe. unfold Seq at 1. cbn [fold_right].
  intros H.
  next_group H s1 a R1 P1 C1.
  next_group H s2 d R2 P2 C2.
  next_group H s3 b R3 P3 C3.
  next_group H s4 m R4 P4 C4.
  next_group H s5 e R5 P5 C5.
  rewrite rmatch_Eps in H.
  cbn [rest pos caps] in *. injection H as <-. cbn [whole groups].
  exists a, d, b, m, e. split.
  - rewrite R1, R2, R3, R4, R5.
    replace (pos s5) with (List.length (a ++ d ++ b ++ m ++ e) + 0)%nat
      by (rewrite !length_app; lia).
    replace (a ++ d ++ b ++ m ++ e ++ rest s5) with ((a ++ d ++ b ++ m ++ e) ++ rest s5)
      by (now rewrite <- !app_assoc).
    rewrite firstn_app_2. cbn. apply app_nil_r.
  - rewrite C5, C4, C3, C2, C1. reflexivity.
Qed.

(** Every match that a scan reports is the result of one attempt. *)
Lemma scan_hits (multiline : bool) (r : regex) (input : jsstring) :
  forall (before : option N) (skip : nat) (h : hit),
    In h (hitsOf (scan multiline r before skip input)) ->
    exists before' input', exec_at multiline r before' input' = Some h.
Proof.
  induction input as [|c input IH]; intros before skip h H; cbn [scan] in H.
  - destruct skip; [|destruct H].
    destruct (exec_at multiline r before []) as [h0|] eqn:E; [|destruct H].
    destruct H as [<-|[]]. eauto.
  - destruct skip as [|n]; [|now apply IH in H].
    destruct (exec_at multiline r before (c :: input)) as [h0|] eqn:E.
    + destruct H as [<-|H]; [eauto|].
      destruct (List.length (whole h0)); now apply IH in H.
    + now apply IH in H.
Qed.

(** ** What any successful match consumed *)

Lemma consumes_refl (s : mstate) : consumes s s [].
Proof. split; [reflexivity | cbn; lia]. Qed.

Lemma consumes_trans (s s1 s2 : mstate) (w1 w2 : jsstring) :
  consumes s s1 w1 -> consumes s1 s2 w2 -> consumes s s2 (w1 ++ w2).
Proof.
  intros (R1 & P1) (R2 & P2). split.
  - now rewrite R1, R2, app_assoc.
  - rewrite length_app. lia.
Qed.

Section Consumption.
Context {R : Type} (multiline : bool).

Lemma iterate_consumes (body : mstate -> (mstate -> option R) -> option R) :
  (forall s k x, body s k = Some x -> exists s1 w, consumes s s1 w /\ k s1 = Some x) ->
  forall n s k x, iterate body k n s = Some x ->
                  exists s1 w, consumes s s1 w /\ k s1 = Some x.
Proof.
  intros Hbody n. induction n as [|n IH]; intros s k x H; cbn [iterate] in H.
  - exists s, []. split; [apply consumes_refl | exact H].
  - destruct (body s _) as [y|] eqn:E.
    + injection H as ->. apply Hbody in E. destruct E as (s1 & w1 & A1 & E).
      destruct (Nat.ltb (pos s) (pos s1)); [|discriminate].
      apply IH in E. destruct E as (s2 & w2 & A2 & E).
      exists s2, (w1 ++ w2). split; [eapply consumes_trans; eassumption | exact E].
    + exists s, []. split; [apply consumes_refl | exact H].
Qed.

(** Whatever the pattern, success hands the rest of the pattern a later
    position of the same input. *)
Lemma rmatch_consumes (r : regex) :
  forall s (k : mstate -> option R) x,
    rmatch multiline r s k = Some x ->
    exists s1 w, consumes s s1 w /\ k s1 = Some x.
Proof.
  induction r as [|p|r1 IH1 r2 IH2|r1 IH1 r2 IH2|r1 IH1| | |i r1 IH1];
    intros s k x H; cbn [rmatch] in *.
  - exists s, []. split; [apply consumes_refl | exact H].
  - destruct s as [pv rs ps cs]; cbn [rest pos caps prev] in *.
    destruct rs as [|c rs]; [discriminate|].
    destruct (p c); [|discriminate].
    eexists _, [c]. split; [|exact H]. split; [reflexivity | cbn; lia].
  - apply IH1 in H. destruct H as (s1 & w1 & A1 & H).
    apply IH2 in H. destruct H as (s2 & w2 & A2 & H).
    exists s2, (w1 ++ w2). split; [eapply consumes_trans; eassumption | exact H].
  - destruct (rmatch multiline r1 s k) as [y|] eqn:E.
    + injection H as ->. now apply IH1 in E.
    + now apply IH2 in H.
  - eapply iterate_consumes; [|exact H]. intros s0 k0 x0. apply IH1.
  - destruct (atBol multiline s); [|discriminate].
    exists s, []. split; [apply consumes_refl | exact H].
  - destruct (atEol multiline s); [|discriminate].
    exists s, []. split; [apply consumes_refl | exact H].
  - apply IH1 in H. destruct H as (s1 & w & A & H).
    eexists _, w. split; [|exact H]. exact A.
Qed.

End Consumption.

Lemma firstn_exact {A : Type} (n : nat) (l r : list A) :
  n = List.length l -> firstn n (l ++ r) = l.
Proof.
  intros ->. replace (List.length l) with (List.length l + 0)%nat by lia.
  rewrite firstn_app_2. cbn [firstn]. apply app_nil_r.
Qed.

(** The matched text of an attempt is a prefix of the input. *)
Lemma exec_at_prefix (multiline : bool) (r : regex) (before : option N) (input : jsstring)
      (h : hit) :
  exec_at multiline r before input = Some h -> exists tl, input = whole h ++ tl.
Proof.
  unfold exec_at. intros H. apply rmatch_consumes in H.
  destruct H as (s1 & w & (Hr & Hp) & H). cbn [rest pos] in *. injection H as <-.
  cbn [whole]. exists (rest s1). rewrite Hp, Hr. cbn [Nat.add].
  replace (List.length w) with (List.length w + 0)%nat by lia.
  rewrite firstn_app_2. cbn [firstn]. now rewrite app_nil_r.
Qed.

(** The pieces of a scan, each match standing for its text, make up the
    part of the input that is not skipped. *)
Lemma scan_partition (multiline : bool) (r : regex) (input : jsstring) :
  forall (before : option N) (skip : nat),
    List.concat (map (fun p => match p with Hit h => whole h | Text c => [c] end)
                     (scan multiline r before skip input))
    = skipn skip input.
Proof.
  induction input as [|c input IH]; intros before skip; cbn [scan].
  - destruct skip as [|n]; [|reflexivity].
    destruct (exec_at multiline r before []) as [h|] eqn:E; [|reflexivity].
    apply exec_at_prefix in E. destruct E as (tl & E).
    symmetry in E. apply app_eq_nil in E. destruct E as [E _].
    cbn [map List.concat skipn]. rewrite E. reflexivity.
  - destruct skip as [|n]; [|cbn [skipn]; apply IH].
    destruct (exec_at multiline r before (c :: input)) as [h|] eqn:E.
    + apply exec_at_prefix in E. destruct E as (tl & E).
      cbn [map List.concat skipn]. destruct (whole h) as [|c' wh] eqn:W; cbn [List.length].
      * cbn [map List.concat app]. rewrite IH. reflexivity.
      * rewrite IH. cbn [app] in E. injection E as <- ->.
        cbn [app]. f_equal. f_equal.
        clear. induction wh as [|a wh IHw]; [reflexivity | exact IHw].
    + cbn [map List.concat app skipn]. rewrite IH. reflexivity.
Qed.

(** ** Claims about the commit lines *)

(** The callback of the commit pass on the pieces of its scan. *)
Lemma commit_pieces_segments (remap : jsstring -> result jsstring) (pieces : list piece) :
  forall parts,
    mapM (fun p => match p with Hit h => commitCallback remap h | Text c => Ok [c] end) pieces
    = Ok parts ->
    exists segs,
      map (fun p => match p with Hit h => whole h | Text c => [c] end) pieces
      = map segmentIn segs /\
      commitsOf segs = hitsOf pieces /\
      parts = map segmentOut segs /\
      (forall m mapped, In (Commit m mapped) segs -> remap (group 4 m) = Ok mapped).
Proof.
  induction pieces as [|p pieces IH]; intros parts H.
  - injection H as <-. exists []. repeat split. intros ? ? [].
  - cbn [mapM] in H. destruct p as [c|h].
    + cbn [bind] in H.
      destruct (mapM _ pieces) as [ps|] eqn:E; cbn [bind] in H; [|discriminate].
      injection H as <-. destruct (IH ps eq_refl) as (segs & Hin & Hc & Hout & Hr).
      exists (Plain c :: segs). cbn [map segmentIn segmentOut].
      rewrite Hin, Hout. repeat split; [exact Hc|].
      intros m mapped [Hx|Hx]; [discriminate | eauto].
    + unfold commitCallback in H.
      destruct (remap (group 4 h)) as [mapped|] eqn:Er; cbn [bind] in H; [|discriminate].
      destruct (mapM _ pieces) as [ps|] eqn:E; cbn [bind] in H; [|discriminate].
      injection H as <-. destruct (IH ps eq_refl) as (segs & Hin & Hc & Hout & Hr).
      exists (Commit h mapped :: segs). cbn [map segmentIn segmentOut].
      rewrite Hin, Hout. repeat split.
      * unfold commitsOf, hitsOf. cbn [flat_map]. f_equal. exact Hc.
      * intros m mapped' [Hx|Hx]; [injection Hx as <- <-; exact Er | eauto].
Qed.

(** The commit pass rewrites the matches of the commit pattern, each into
    its groups 1, 3 and 5 around the remapped group 4, and copies the rest;
    every match is its five groups in a row. *)
Lemma replaceCommit_segments (remap : jsstring -> result jsstring) (input out : jsstring) :
  replaceCommit remap input = Ok out ->
  exists segs,
    input = List.concat (map segmentIn segs) /\
    commitsOf segs = exec_all false commitRe input /\
    out = List.concat (map segmentOut segs) /\
    (forall m mapped,
        In (Commit m mapped) segs ->
        whole m = group 1 m ++ group 2 m ++ group 3 m ++ group 4 m ++ group 5 m /\
        remap (group 4 m) = Ok mapped).
Proof.
  unfold replaceCommit, replace. intros H.
  destruct (mapM _ (scan false commitRe None 0 input)) as [parts|] eqn:E; cbn [bind] in H;
    [|discriminate].
  injection H as <-.
  apply commit_pieces_segments in E. destruct E as (segs & Hin & Hc & Hout & Hr).
  exists segs. rewrite <- Hin, <- Hout. repeat split.
  - rewrite scan_partition. reflexivity.
  - exact Hc.
  - assert (Hm : In m (exec_all false commitRe input)).
    { unfold exec_all. rewrite <- Hc. unfold commitsOf. apply in_flat_map.
      exists (Commit m mapped). split; [exact H | now left]. }
    apply scan_hits in Hm. destruct Hm as (before & input' & Hm).
    apply exec_commitRe in Hm. destruct Hm as (a & d & b & s & e & Hw & Hg).
    unfold group. rewrite Hg. exact Hw.
  - eapply Hr; eassumption.
Qed.

(** C10 does not hold of a run.  In [straddlingText] the commit pattern
    matches, with [x], a line break and [echo ] as the [--date] value; the
    echo pass rewrites the literal of the message, which lies on a line that
    starts with [echo '], the commit pattern matches no more, and the run
    leaves the [--date] value as it was.  In [indentedText] the commit pattern
    matches too, but the line does not start with [git], no message date is
    gathered, and the run writes the text as it is. *)
Lemma commit_run_counterexample :
  (exec_all false commitRe (sanitize straddlingText)
   = [ {| whole := straddlingText;
          groups := [(5%nat, js "'"); (4%nat, js exLit); (3%nat, js "' -m '");
                     (2%nat, js "x" ++ LF ++ js "echo "); (1%nat, js "git commit --date='")] |} ]
   /\ main AlignRight exNow straddlingText
      = Ok (js "git commit --date='" ++ (js "x" ++ LF ++ js "echo ") ++ js "' -m '"
            ++ js "Fri Oct 30 2026 12:00:00 GMT+0000 (UTC)" ++ js "'"))
  /\
  (exec_all false commitRe (sanitize indentedText)
   = [ {| whole := commitLine "x" exLit;
          groups := [(5%nat, js "'"); (4%nat, js exLit); (3%nat, js "' -m '");
                     (2%nat, js "x"); (1%nat, js "git commit --date='")] |} ]
   /\ main AlignRight exNow indentedText = Ok indentedText).
Proof. repeat split; vm_compute; reflexivity. Qed.

(** C10, for the text that the commit pass receives.  In a run that gathers
    at least one message date and writes its output, take the text that the
    echo pass leaves.  It is a sequence of segments, code units and the
    matches of the commit pattern in order, and the output is the same
    sequence with every code unit kept and every match replaced by its
    groups 1, 3 and 5 around two copies of one literal: the remapped group 4,
    the date of the message, under the shift of the run.  Every match is its
    five groups in a row, so that the literal stands where the [--date] value
    (group 2) and the message date stood; group 2 is not part of what is
    written. *)
Theorem commit_pass_rewrites (align : Align) (now : Z) (text out : jsstring) :
  gather (sanitize text) <> [] ->
  main align now text = Ok out ->
  exists (i : Z) (idxs : list Z) (shift : Z) (afterEcho : jsstring) (segs : list segment),
    mapM (dayIndex (gridStartUTC 2019)) (gather (sanitize text)) = Ok (i :: idxs) /\
    shiftCols align (todayRow now) (toColRow i) (map toColRow idxs) = Ok shift /\
    replaceEcho (remapOne (gridStartUTC 2019) (windowStartUTC now) shift) (sanitize text)
    = Ok afterEcho /\
    afterEcho = List.concat (map segmentIn segs) /\
    commitsOf segs = exec_all false commitRe afterEcho /\
    out = List.concat (map segmentOut segs) /\
    (forall m mapped,
        In (Commit m mapped) segs ->
        whole m = group 1 m ++ group 2 m ++ group 3 m ++ group 4 m ++ group 5 m /\
        remapOne (gridStartUTC 2019) (windowStartUTC now) shift (group 4 m) = Ok mapped).
Proof.
  unfold main. intros Hg H.
  destruct (gather (sanitize text)) as [|s msgs]; [now elim Hg|]. cbn [mapM].
  destruct (dayIndex (gridStartUTC 2019) s) as [i|]; cbn [bind] in H |- *; [|discriminate].
  destruct (mapM (dayIndex (gridStartUTC 2019)) msgs) as [idxs|]; cbn [bind] in H |- *;
    [|discriminate].
  destruct (shiftCols align (todayRow now) (toColRow i) (map toColRow idxs)) as [shift|] eqn:Es;
    cbn [bind] in H; [|discriminate].
  destruct (replaceEcho _ (sanitize text)) as [afterEcho|] eqn:Ee; cbn [bind] in H;
    [|discriminate].
  apply replaceCommit_segments in H. destruct H as (segs & Hin & Hc & Hout & Hr).
  exists i, idxs, shift, afterEcho, segs.
  split; [reflexivity|]. split; [exact Es|]. split; [exact Ee|].
  split; [exact Hin|]. split; [exact Hc|]. split; [exact Hout | exact Hr].
Qed.

Lemma commit_pass_rewrites_witness :
  main AlignRight exNow (commitLine "whatever" exLit)
  = Ok (commitLine "Fri Oct 30 2026 12:00:00 GMT+0000 (UTC)"
                   "Fri Oct 30 2026 12:00:00 GMT+0000 (UTC)") /\
  exists (i : Z) (idxs : list Z) (shift : Z) (afterEcho : jsstring) (segs : list segment),
    mapM (dayIndex (gridStartUTC 2019)) (gather (sanitize (commitLine "whatever" exLit)))
    = Ok (i :: idxs) /\
    shiftCols AlignRight (todayRow exNow) (toColRow i) (map toColRow idxs) = Ok shift /\
    replaceEcho (remapOne (gridStartUTC 2019) (windowStartUTC exNow) shift)
                (sanitize (commitLine "whatever" exLit))
    = Ok afterEcho /\
    afterEcho = List.concat (map segmentIn segs) /\
    commitsOf segs = exec_all false commitRe afterEcho /\
    commitLine "Fri Oct 30 2026 12:00:00 GMT+0000 (UTC)"
               "Fri Oct 30 2026 12:00:00 GMT+0000 (UTC)"
    = List.concat (map segmentOut segs) /\
    (forall m mapped,
        In (Commit m mapped) segs ->
        whole m = group 1 m ++ group 2 m ++ group 3 m ++ group 4 m ++ group 5 m /\
        remapOne (gridStartUTC 2019) (windowStartUTC exNow) shift (group 4 m) = Ok mapped).
Proof.
  split; [vm_compute; reflexivity|].
  apply (commit_pass_rewrites AlignRight exNow (commitLine "whatever" exLit)).
  - vm_compute; discriminate.
  - vm_compute; reflexivity.
Defined.

(** Two runs on templates that differ in the [--date] value only write the
    same text, with the remapped message date in both places. *)
Example commit_date_ignored :
  main AlignRight exNow (commitLine "whatever" exLit)
  = Ok (commitLine "Fri Oct 30 2026 12:00:00 GMT+0000 (UTC)"
                   "Fri Oct 30 2026 12:00:00 GMT+0000 (UTC)") /\
  main AlignRight exNow (commitLine "Tue Jan 01 2019 00:00:00 GMT+0000 (UTC)" exLit)
  = main AlignRight exNow (commitLine "whatever" exLit).
Proof. split; vm_compute; reflexivity. Qed.

(* ===================================================================== *)
(** * Further properties *)
(* ===================================================================== *)

(** ** The aligner in closed form *)

Lemma shiftBeforeLoop_range (align : Align) (p : ColRow) (ps : list ColRow) :
  maxColOf p ps - minColOf p ps + 1 <= 53 ->
  0 <= minColOf p ps + shiftBeforeLoop align p ps /\
  maxColOf p ps + shiftBeforeLoop align p ps <= 52.
Proof.
  intros W. pose proof (clampShift_range (minColOf p ps) (maxColOf p ps)
     (candidateShift align (minColOf p ps) (maxColOf p ps)
        (maxColOf p ps - minColOf p ps + 1)) W) as H.
  unfold shiftBeforeLoop, rightmostCol, GRID_WEEKS in *. lia.
Qed.

(** The loop body runs at most once: after one step nothing is left in
    column 52. *)
Lemma loop_runs_at_most_once (align : Align) (today : Z) (p : ColRow) (ps : list ColRow) :
  maxColOf p ps - minColOf p ps + 1 <= 53 ->
  shiftAfterLoop align today p ps =
  if mustNudge (p :: ps) (minColOf p ps) today (shiftBeforeLoop align p ps)
  then shiftBeforeLoop align p ps - 1
  else shiftBeforeLoop align p ps.
Proof.
  intros W. destruct (shiftBeforeLoop_range align p ps W) as [Hlo Hhi].
  unfold shiftAfterLoop. fold (shiftBeforeLoop align p ps).
  rewrite nudge_step.
  destruct (mustNudge (p :: ps) (minColOf p ps) today (shiftBeforeLoop align p ps)) eqn:G;
    [|reflexivity].
  rewrite nudge_step. unfold mustNudge at 1.
  rewrite no_violation_below by (unfold rightmostCol, GRID_WEEKS; lia).
  reflexivity.
Qed.

Lemma width53_shift (align : Align) (p : ColRow) (ps : list ColRow) :
  maxColOf p ps - minColOf p ps + 1 = 53 ->
  shiftBeforeLoop align p ps = rightmostCol - maxColOf p ps /\
  minColOf p ps + shiftBeforeLoop align p ps = 0.
Proof.
  intros W. assert (W' : maxColOf p ps - minColOf p ps + 1 <= 53) by lia.
  destruct (shiftBeforeLoop_range align p ps W'). unfold rightmostCol, GRID_WEEKS. lia.
Qed.

Lemma violation_in_last_column (today s : Z) (p : ColRow) (ps : list ColRow) :
  existsb (violatesFuture s today) (p :: ps) = true ->
  maxColOf p ps + s <= 52 -> maxColOf p ps + s = 52.
Proof.
  intros E H. apply existsb_exists in E. destruct E as (q & Hq & Hv).
  pose proof (maxColOf_ge p ps q Hq).
  unfold violatesFuture, rightmostCol, GRID_WEEKS in Hv.
  apply andb_prop in Hv. destruct Hv as [Hv _]. apply Z.eqb_eq in Hv. lia.
Qed.

(** The aligner in closed form. *)
Lemma shiftCols_cases (align : Align) (today : Z) (p : ColRow) (ps : list ColRow) :
  let width := maxColOf p ps - minColOf p ps + 1 in
  let s0 := shiftBeforeLoop align p ps in
  shiftCols align today p ps =
  if width >? 53 then Throw (DrawingTooWide width)
  else if (width =? 53) && lateInLastColumn today p ps then Throw FutureDays
  else Ok (if mustNudge (p :: ps) (minColOf p ps) today s0 then s0 - 1 else s0).
Proof.
  intros width s0. unfold shiftCols. fold width. change GRID_WEEKS with 53.
  destruct (width >? 53) eqn:W; [reflexivity|].
  assert (W' : width <= 53) by lia.
  rewrite (loop_runs_at_most_once align today p ps W'). fold s0.
  destruct (shiftBeforeLoop_range align p ps W') as [Hlo Hhi]. fold s0 in Hlo, Hhi.
  destruct (mustNudge (p :: ps) (minColOf p ps) today s0) eqn:G.
  - (* nudged once: nothing is left in column 52 *)
    rewrite no_violation_below by (unfold rightmostCol, GRID_WEEKS; lia).
    unfold mustNudge in G. apply andb_prop in G. destruct G as [_ G].
    destruct (width =? 53) eqn:E; [|reflexivity].
    apply Z.eqb_eq in E. destruct (width53_shift align p ps E) as [_ H0].
    fold s0 in H0. lia.
  - destruct (existsb (violatesFuture s0 today) (p :: ps)) eqn:V.
    + (* the loop could not move *)
      unfold mustNudge in G. rewrite V in G. cbn [andb] in G.
      pose proof (violation_in_last_column today s0 p ps V Hhi) as Hl.
      assert (E : width = 53) by (unfold width; lia).
      destruct (width53_shift align p ps E) as [Hs _]. fold s0 in Hs.
      rewrite Hs, violates_at_right in V. rewrite V.
      replace (width =? 53) with true by (symmetry; apply Z.eqb_eq; exact E).
      reflexivity.
    + destruct (width =? 53) eqn:E; [|reflexivity].
      apply Z.eqb_eq in E. destruct (width53_shift align p ps E) as [Hs _]. fold s0 in Hs.
      rewrite Hs, violates_at_right in V. rewrite V. reflexivity.
Qed.

(** X1. The aligner in closed form.  A drawing wider than 53 columns is
    refused; one of exactly 53 columns is refused, whatever the mode, when
    a point of its last column lies on a weekday after today's; every other
    drawing gets the clamped candidate shift, lowered by one when that
    would put a point into the future, and by no more. *)
Theorem shiftCols_closed_form (align : Align) (today : Z) (p : ColRow) (ps : list ColRow) :
  let width := maxColOf p ps - minColOf p ps + 1 in
  let s0 := shiftBeforeLoop align p ps in
  shiftCols align today p ps =
  if width >? 53 then Throw (DrawingTooWide width)
  else if (width =? 53) && lateInLastColumn today p ps then Throw FutureDays
  else Ok (if mustNudge (p :: ps) (minColOf p ps) today s0 then s0 - 1 else s0).
Proof. intros width s0. apply shiftCols_cases. Qed.

(** X2. Centre alignment is never nudged: in a successful run the left
    margin is floor((53 - width) / 2) and the right margin is the same or
    one more. *)
Theorem center_margins (today : Z) (p : ColRow) (ps : list ColRow) (s : Z) :
  shiftCols AlignCenter today p ps = Ok s ->
  let width := maxColOf p ps - minColOf p ps + 1 in
  let L := minColOf p ps + s in
  let R := 52 - (maxColOf p ps + s) in
  L = (53 - width) / 2 /\ L <= R <= L + 1.
Proof.
  intros H width L R. pose proof (minColOf_le_maxColOf p ps) as Hmm.
  rewrite shiftCols_cases in H. fold width in H.
  destruct (width >? 53) eqn:W; [discriminate|].
  destruct ((width =? 53) && lateInLastColumn today p ps); [discriminate|].
  assert (Hs0 : shiftBeforeLoop AlignCenter p ps = (53 - width) / 2 - minColOf p ps).
  { unfold shiftBeforeLoop, clampShift, candidateShift, rightmostCol, GRID_WEEKS.
    fold width. unfold width in *. div_mod_lia. }
  assert (G : mustNudge (p :: ps) (minColOf p ps) today (shiftBeforeLoop AlignCenter p ps) = false).
  { unfold mustNudge.
    destruct (existsb (violatesFuture (shiftBeforeLoop AlignCenter p ps) today) (p :: ps)) eqn:V;
      [|reflexivity].
    cbn [andb]. apply violation_in_last_column in V.
    - rewrite Hs0 in *. unfold width in *.
      match goal with |- ?b = false => destruct b eqn:E; [exfalso; div_mod_lia | reflexivity] end.
    - rewrite Hs0. unfold width in *. div_mod_lia. }
  rewrite G in H. injection H as <-. unfold L, R. rewrite Hs0. unfold width in *.
  div_mod_lia.
Qed.

(** ** The clock and the window *)

(** X3. [weekStartUTC] gives, for every time value, the same time of day
    on the Sunday of its week: a Sunday, at most six days back. *)
Theorem weekStartUTC_spec (t : Z) :
  WeekDay (weekStartUTC t) = 0 /\
  weekStartUTC t <= t < weekStartUTC t + 7 * 86400000 /\
  weekStartUTC t mod 86400000 = t mod 86400000.
Proof.
  unfold weekStartUTC, WeekDay, Day, msPerDay.
  pose proof (Z.mod_pos_bound (t / 86400000 + 4) 7 ltac:(lia)) as Hb.
  remember ((t / 86400000 + 4) mod 7) as wd eqn:Hwd.
  assert (Hd : (t - wd * 86400000) / 86400000 = t / 86400000 - wd).
  { replace (t - wd * 86400000) with (t + (- wd) * 86400000) by lia.
    rewrite Z.div_add by lia. lia. }
  assert (Hm : (t - wd * 86400000) mod 86400000 = t mod 86400000).
  { replace (t - wd * 86400000) with (t + (- wd) * 86400000) by lia.
    apply Z.mod_add. lia. }
  rewrite Hd, Hm. repeat split; try lia.
  revert Hwd. generalize (t / 86400000) as q. intros q Hwd. div_mod_lia.
Qed.

(** X4. [gridStartUTC] is the midnight of the Sunday on or before
    January 1 of the year. *)
Theorem gridStartUTC_spec (year : Z) :
  WeekDay (gridStartUTC year) = 0 /\
  gridStartUTC year mod 86400000 = 0 /\
  gridStartUTC year <= Date_UTC year 0 1 < gridStartUTC year + 7 * 86400000.
Proof.
  pose proof (Date_UTC_midnight year 0 1) as Ht. revert Ht.
  unfold gridStartUTC. generalize (Date_UTC year 0 1) as t. intros t Ht.
  unfold WeekDay, Day, msPerDay. div_mod_lia.
Qed.

Lemma midnight_days (t : Z) : t mod 86400000 = 0 -> t = Day t * 86400000.
Proof. unfold Day, msPerDay. intros H. div_mod_lia. Qed.

Lemma Day_days (d : Z) : Day (d * 86400000) = d.
Proof. unfold Day, msPerDay. apply Z.div_mul. lia. Qed.

Lemma windowStartUTC_eq (now : Z) :
  windowStartUTC now = todayUTC now - todayRow now * 86400000 - 52 * 7 * 86400000.
Proof.
  unfold windowStartUTC, weekStartUTC, todayRow, GRID_WEEKS.
  generalize (todayUTC now) as t. intros t. generalize (WeekDay t) as r. intros r. lia.
Qed.

Lemma todayRow_range (now : Z) : 0 <= todayRow now <= 6.
Proof.
  unfold todayRow, WeekDay. generalize (Day (todayUTC now)) as d. intros d.
  pose proof (Z.mod_pos_bound (d + 4) 7). lia.
Qed.

(** Today is the day of row [todayRow] in column 52 of the window. *)
Lemma today_cell (now : Z) :
  0 <= todayRow now <= 6 /\
  todayUTC now = fromGrid {| col := 52; row := todayRow now |} (windowStartUTC now).
Proof.
  pose proof (todayRow_range now) as Hr. pose proof (windowStartUTC_eq now) as He.
  split; [exact Hr|]. revert He.
  generalize (windowStartUTC now) as win, (todayUTC now) as t, (todayRow now) as r.
  intros win t r He. unfold fromGrid, fromColRow. cbn [col row]. lia.
Qed.

(** X5. The window starts on a Sunday at midnight, and today sits in its
    last column, 52, on the row of today's weekday. *)
Theorem today_in_window (now : Z) :
  0 <= todayRow now <= 6 /\
  WeekDay (windowStartUTC now) = 0 /\
  windowStartUTC now mod 86400000 = 0 /\
  todayUTC now = fromGrid {| col := 52; row := todayRow now |} (windowStartUTC now) /\
  toGrid (todayUTC now) (windowStartUTC now) = {| col := 52; row := todayRow now |}.
Proof.
  destruct (windowStartUTC_sunday now) as [Hm Hw].
  destruct (today_cell now) as [Hr Hf].
  repeat split; try assumption; try lia.
  rewrite Hf at 1. revert Hr.
  generalize (windowStartUTC now) as win, (todayRow now) as r. intros win r Hr.
  unfold toGrid, fromGrid; cbn [col row].
  replace (win + fromColRow 52 r * 86400000 - win)
    with (fromColRow 52 r * 86400000) by lia.
  rewrite Z.div_mul by lia. apply toColRow_fromColRow; lia.
Qed.

(** ** The remapper as a translation *)

Lemma shiftCols_Ok_range (align : Align) (today : Z) (p : ColRow) (ps : list ColRow) (s : Z) :
  shiftCols align today p ps = Ok s ->
  forall q, In q (p :: ps) ->
    0 <= col q + s <= 52 /\ (col q + s = 52 -> row q <= today).
Proof.
  intros H q Hq. apply shiftCols_Ok in H. destruct H as (W & Hs & V).
  unfold GRID_WEEKS in W.
  pose proof (loop_runs_at_most_once align today p ps W) as Hl. rewrite <- Hs in Hl.
  destruct (shiftBeforeLoop_range align p ps W) as [Hlo Hhi].
  pose proof (minColOf_le p ps q Hq). pose proof (maxColOf_ge p ps q Hq).
  pose proof (existsb_false_forall _ _ V q Hq) as Hv.
  unfold violatesFuture, rightmostCol, GRID_WEEKS in Hv.
  destruct (mustNudge (p :: ps) (minColOf p ps) today (shiftBeforeLoop align p ps)) eqn:G.
  - unfold mustNudge in G. apply andb_prop in G. destruct G as [_ G].
    split; [lia|]. intros E. apply andb_false_iff in Hv. destruct Hv; lia.
  - split; [lia|]. intros E. apply andb_false_iff in Hv. destruct Hv; lia.
Qed.

Lemma newDayUTC_index (start win shift t : Z) :
  start <= t ->
  newDayUTC start win shift t
  = win + ((t - start) / 86400000 + 7 * shift) * 86400000.
Proof.
  intros Hle. unfold newDayUTC.
  assert (Hi : 0 <= (t - start) / 86400000) by (apply Z.div_pos; lia).
  pose proof (fromColRow_toColRow _ Hi) as Hf. unfold fromColRow in *. lia.
Qed.

(** X9. For a source day on or after the grid start, the remapper is a
    translation: the day moves by the distance of the two grid origins plus
    [shift] whole weeks, so the drawing keeps its shape. *)
Theorem remap_is_translation (start win shift t : Z) :
  start <= t -> (t - start) mod 86400000 = 0 ->
  newDayUTC start win shift t = t + (win - start) + shift * 7 * 86400000.
Proof.
  intros Hle Hm. rewrite newDayUTC_index by assumption.
  pose proof (Z.div_mod (t - start) 86400000 ltac:(lia)) as Hd. rewrite Hm in Hd.
  generalize dependent ((t - start) / 86400000). intros i Hd. lia.
Qed.

(** X10. A source day before the grid start that is no Sunday lands one
    week earlier than the translation of the other days: its row is
    negative. *)
Theorem remap_before_grid_start (start win shift t : Z) :
  t < start -> (t - start) mod 86400000 = 0 -> (t - start) mod (7 * 86400000) <> 0 ->
  newDayUTC start win shift t = t + (win - start) + shift * 7 * 86400000 - 7 * 86400000.
Proof.
  intros Hlt Hm H7. unfold newDayUTC, toColRow, fromColRow; cbn [col row].
  pose proof (Z.div_mod (t - start) 86400000 ltac:(lia)) as Hd. rewrite Hm in Hd.
  assert (Hi7 : ((t - start) / 86400000) mod 7 <> 0).
  { intros E. apply H7. replace (t - start) with ((t - start) / 86400000 * 86400000) by lia.
    pose proof (Z.div_mod ((t - start) / 86400000) 7 ltac:(lia)) as Hd7. rewrite E in Hd7.
    rewrite Hd7 at 1.
    replace ((7 * ((t - start) / 86400000 / 7) + 0) * 86400000)
      with (((t - start) / 86400000 / 7) * (7 * 86400000)) by lia.
    apply Z.mod_mul. lia. }
  assert (Hneg : (t - start) / 86400000 < 0) by (apply Z.div_lt_upper_bound; lia).
  generalize dependent ((t - start) / 86400000). intros i Hd Hi7 Hneg.
  replace t with (start + 86400000 * i) by lia.
  assert (Hr : 7 * (i / 7) + Z.rem i 7 = i - 7) by div_mod_lia.
  lia.
Qed.

(** X8. In a successful run every remapped day of a source day on or after
    the grid start lies in the window and is not after today. *)
Theorem remapped_days_in_window (align : Align) (now : Z) (p : ColRow) (ps : list ColRow)
        (s t : Z) :
  shiftCols align (todayRow now) p ps = Ok s ->
  gridStartUTC 2019 <= t ->
  In (toGrid t (gridStartUTC 2019)) (p :: ps) ->
  windowStartUTC now <= newDayUTC (gridStartUTC 2019) (windowStartUTC now) s t <= todayUTC now.
Proof.
  intros H Hle Hin.
  destruct (shiftCols_Ok_range _ _ _ _ _ H _ Hin) as [Hc Hr].
  destruct (today_cell now) as (Ht & Hf).
  rewrite newDayUTC_fromGrid.
  assert (Hrow : 0 <= row (toGrid t (gridStartUTC 2019)) <= 6).
  { unfold toGrid. apply toColRow_range. apply Z.div_pos; lia. }
  revert Hc Hr Hrow Ht Hf.
  generalize (toGrid t (gridStartUTC 2019)) as q, (windowStartUTC now) as win,
    (todayRow now) as r, (todayUTC now) as today.
  intros q win r today Hc Hr Hrow Ht Hf. subst today.
  unfold fromGrid, fromColRow; cbn [col row].
  destruct (Z.eq_dec (col q + s) 52) as [E|E]; [specialize (Hr E)|]; lia.
Qed.

(** ** Rendering and parsing *)

Lemma in_zrange (lo n x : Z) :
  lo <= x < lo + n -> In x (zrange lo n).
Proof.
  intros H. unfold zrange. apply in_map_iff. exists (Z.to_nat (x - lo)). split; [lia|].
  apply in_seq. lia.
Qed.

Lemma twoDigits_all : forallb twoDigitsOk (zrange 0 100) = true.
Proof. vm_compute. reflexivity. Qed.

Lemma fourDigits_all : forallb fourDigitsOk (zrange 1000 9000) = true.
Proof. vm_compute. reflexivity. Qed.

Lemma twoDigits (d : Z) :
  0 <= d <= 99 ->
  exists a b, padStart2 (String_of_Z d) = [a; b] /\ inRange 48 57 a = true /\
              inRange 48 57 b = true /\ digitsToNumber [a; b] = d.
Proof.
  intros H. pose proof (proj1 (forallb_forall _ _) twoDigits_all d (in_zrange 0 100 d ltac:(lia))) as Hd.
  unfold twoDigitsOk in Hd.
  destruct (padStart2 (String_of_Z d)) as [|a [|b [|c l]]]; try discriminate.
  apply andb_prop in Hd. destruct Hd as [Hd H3]. apply andb_prop in Hd. destruct Hd as [H1 H2].
  apply Z.eqb_eq in H3. eauto 6.
Qed.

Lemma fourDigits (y : Z) :
  1000 <= y <= 9999 ->
  exists a b c e, String_of_Z y = [a; b; c; e] /\ inRange 48 57 a = true /\
                  inRange 48 57 b = true /\ inRange 48 57 c = true /\
                  inRange 48 57 e = true /\ digitsToNumber [a; b; c; e] = y.
Proof.
  intros H.
  pose proof (proj1 (forallb_forall _ _) fourDigits_all y (in_zrange 1000 9000 y ltac:(lia))) as Hd.
  unfold fourDigitsOk in Hd.
  destruct (String_of_Z y) as [|a [|b [|c [|e [|x l]]]]]; try discriminate.
  rewrite !andb_true_iff in Hd. destruct Hd as ((((H1 & H2) & H3) & H4) & H5).
  apply Z.eqb_eq in H5. exists a, b, c, e. repeat split; assumption.
Qed.

Ltac name_case :=
  eexists _, _, _; split; [vm_compute; reflexivity | repeat split; vm_compute; reflexivity].

Lemma weekday_name (w : Z) :
  0 <= w <= 6 ->
  exists a b c, at_index DOW w = [a; b; c] /\ inRange 65 90 a = true /\
                inRange 97 122 b = true /\ inRange 97 122 c = true.
Proof.
  intros H. assert (Hc : w = 0 \/ w = 1 \/ w = 2 \/ w = 3 \/ w = 4 \/ w = 5 \/ w = 6) by lia.
  repeat (destruct Hc as [->|Hc]; [name_case|]). subst w. name_case.
Qed.

Lemma month_name (m : Z) :
  0 <= m <= 11 ->
  exists a b c, at_index MON m = [a; b; c] /\ inRange 65 90 a = true /\
                inRange 97 122 b = true /\ inRange 97 122 c = true /\
                indexOf MON [a; b; c] = m.
Proof.
  intros H.
  assert (Hc : m = 0 \/ m = 1 \/ m = 2 \/ m = 3 \/ m = 4 \/ m = 5 \/ m = 6 \/ m = 7 \/ m = 8
               \/ m = 9 \/ m = 10 \/ m = 11) by lia.
  repeat (destruct Hc as [->|Hc]; [name_case|]). subst m. name_case.
Qed.

Lemma dayShape_tokens (w1 w2 w3 m1 m2 m3 d1 d2 y1 y2 y3 y4 : N) (tail : jsstring) :
  inRange 65 90 w1 = true -> inRange 97 122 w2 = true -> inRange 97 122 w3 = true ->
  inRange 65 90 m1 = true -> inRange 97 122 m2 = true -> inRange 97 122 m3 = true ->
  inRange 48 57 d1 = true -> inRange 48 57 d2 = true ->
  inRange 48 57 y1 = true -> inRange 48 57 y2 = true -> inRange 48 57 y3 = true ->
  inRange 48 57 y4 = true ->
  dayShape (w1 :: w2 :: w3 :: 32%N :: m1 :: m2 :: m3 :: 32%N :: d1 :: d2 :: 32%N
               :: y1 :: y2 :: y3 :: y4 :: 32%N :: tail)
  = Some ([w1; w2; w3], [m1; m2; m3], [d1; d2], [y1; y2; y3; y4]).
Proof.
  intros. cbv beta iota delta [dayShape].
  repeat match goal with H : _ = true |- _ => rewrite H; clear H end.
  reflexivity.
Qed.

(** X12. Round trip of the renderer and the parser: for a day at midnight
    UTC in a year of four digits, the literal that [fmtUTCNoon] writes
    parses to that day. *)
Theorem parse_fmt_round_trip (t : Z) :
  t mod 86400000 = 0 -> 1000 <= YearFromTime t <= 9999 ->
  parseFullDayUTC (fmtUTCNoon t) = Ok t.
Proof.
  intros Hm Hy. unfold fmtUTCNoon.
  assert (Hd : Day (t + 12 * 3600 * 1000) = Day t) by (unfold Day, msPerDay; div_mod_lia).
  assert (HY : YearFromTime (t + 12 * 3600 * 1000) = YearFromTime t)
    by (unfold YearFromTime; now rewrite Hd).
  pose proof (MakeDay_of_time (t + 12 * 3600 * 1000)) as HM. rewrite Hd, HY in HM.
  destruct (MonthFromTime_spec (t + 12 * 3600 * 1000)) as [Hmo _].
  pose proof (DateFromTime_range (t + 12 * 3600 * 1000)) as Hda.
  assert (Hwd : 0 <= WeekDay (t + 12 * 3600 * 1000) <= 6).
  { unfold WeekDay. pose proof (Z.mod_pos_bound (Day (t + 12 * 3600 * 1000) + 4) 7). lia. }
  rewrite HY. revert HM Hmo Hda Hwd.
  generalize (WeekDay (t + 12 * 3600 * 1000)) as w, (MonthFromTime (t + 12 * 3600 * 1000)) as m,
    (DateFromTime (t + 12 * 3600 * 1000)) as d.
  intros w m d HM Hmo Hda Hwd.
  destruct (weekday_name w Hwd) as (w1 & w2 & w3 & -> & ? & ? & ?).
  destruct (month_name m Hmo) as (m1 & m2 & m3 & -> & ? & ? & ? & Hi).
  destruct (twoDigits d ltac:(lia)) as (d1 & d2 & -> & ? & ? & Hdd).
  destruct (fourDigits _ Hy) as (y1 & y2 & y3 & y4 & -> & ? & ? & ? & ? & Hyy).
  rewrite parseFullDayUTC_shape.
  change (js " ") with [32%N]. cbn [app].
  change (js " 12:00:00 GMT+0000 (UTC)") with (32%N :: js "12:00:00 GMT+0000 (UTC)").
  rewrite dayShape_tokens by assumption.
  rewrite Hi, Hdd, Hyy. f_equal. unfold Date_UTC.
  replace ((0 <=? YearFromTime t) && (YearFromTime t <=? 99)) with false
    by (symmetry; apply andb_false_iff; right; apply Z.leb_gt; lia).
  rewrite HM. symmetry. now apply midnight_days.
Qed.

(** X13. The parser reads the first 16 code units only: the clock time,
    the offset and the zone name of a literal have no influence on the
    day. *)
Theorem parse_reads_16 (s tail : jsstring) (t : Z) :
  parseFullDayUTC s = Ok t -> parseFullDayUTC (firstn 16 s ++ tail) = Ok t.
Proof.
  rewrite !parseFullDayUTC_shape. unfold dayShape.
  do 16 (destruct s as [|? s]; [cbv beta iota; discriminate|]).
  cbn [firstn app]. cbv beta iota.
  match goal with |- context [if ?b then _ else _] => destruct b end;
    [exact (fun H => H) | discriminate].
Qed.

Lemma gridStartUTC_2019 : gridStartUTC 2019 = 17895 * 86400000.
Proof. vm_compute. reflexivity. Qed.

Lemma Date_UTC_2019 (k dd : Z) :
  0 <= k <= 11 -> Date_UTC 2019 k dd = (17897 + monthStart 0 k + dd - 1) * 86400000.
Proof.
  intros Hk. unfold Date_UTC, MakeDay, msPerDay.
  replace ((0 <=? 2019) && (2019 <=? 99)) with false by reflexivity.
  rewrite Z.div_small, Z.mod_small by lia. rewrite Z.add_0_r.
  replace (DayFromYear 2019) with 17897 by (vm_compute; reflexivity).
  replace (InLeapYear 2019) with 0 by (vm_compute; reflexivity).
  reflexivity.
Qed.

Lemma indexOf_MON (m : jsstring) : In m MON -> 0 <= indexOf MON m <= 11.
Proof.
  intros Hm. repeat (destruct Hm as [<-|Hm]; [vm_compute; split; discriminate|]). destruct Hm.
Qed.

(** Real days of 2019 lie in columns 0 to 52 of the source grid. *)
Lemma real_day_index (s : jsstring) :
  realDay2019 s ->
  exists i, dayIndex (gridStartUTC 2019) s = Ok i /\ 2 <= i <= 366 /\
            0 <= col (toColRow i) <= 52 /\ 0 <= row (toColRow i) <= 6.
Proof.
  intros (w & m & d & Hs & Hm & Hd).
  unfold dayIndex. rewrite parseFullDayUTC_shape, Hs. cbn [bind].
  replace (digitsToNumber (js "2019")) with 2019 by (vm_compute; reflexivity).
  pose proof (indexOf_MON m Hm) as Hk. rewrite Date_UTC_2019 by assumption.
  rewrite gridStartUTC_2019.
  revert Hk Hd. generalize (indexOf MON m) as k, (digitsToNumber d) as dd. intros k dd Hk Hd.
  replace ((17897 + monthStart 0 k + dd - 1) * 86400000 - 17895 * 86400000)
    with ((monthStart 0 k + dd + 1) * 86400000) by lia.
  rewrite Z.div_mul by lia. eexists; split; [reflexivity|].
  assert (Hi : 2 <= monthStart 0 k + dd + 1 <= 366).
  { assert (Hc : k = 0 \/ k = 1 \/ k = 2 \/ k = 3 \/ k = 4 \/ k = 5 \/ k = 6 \/ k = 7 \/ k = 8
                 \/ k = 9 \/ k = 10 \/ k = 11) by lia.
    repeat (destruct Hc as [->|Hc]; [cbv beta iota delta [monthStart]; lia|]).
    subst k. cbv beta iota delta [monthStart]. lia. }
  split; [exact Hi|]. generalize dependent (monthStart 0 k + dd + 1). intros i Hi.
  unfold toColRow; cbn [col row]. div_mod_lia.
Qed.

(** ** What a run can throw *)

Lemma mapM_Throw {A B : Type} (f : A -> result B) (xs : list A) (e : error) :
  mapM f xs = Throw e -> exists x, In x xs /\ f x = Throw e.
Proof.
  induction xs as [|x xs IH]; [discriminate|]. cbn [mapM]. intros H.
  destruct (f x) as [y|e'] eqn:E; cbn [bind] in H.
  - destruct (mapM f xs) as [ys|e'']; cbn [bind] in H; [discriminate|].
    destruct (IH H) as (x' & Hx' & Hf). exists x'. split; [now right | exact Hf].
  - injection H as <-. exists x. split; [now left | exact E].
Qed.

Lemma mapM_Ok {A B : Type} (f : A -> result B) (P : B -> Prop) (xs : list A) :
  (forall x, In x xs -> exists y, f x = Ok y /\ P y) ->
  exists ys, mapM f xs = Ok ys /\ Forall P ys.
Proof.
  induction xs as [|x xs IH]; intros H.
  - exists []. split; [reflexivity | constructor].
  - destruct (H x (or_introl eq_refl)) as (y & Hy & Py).
    destruct IH as (ys & Hys & Pys); [intros x' Hx'; apply H; now right|].
    exists (y :: ys). cbn [mapM]. rewrite Hy. cbn [bind]. rewrite Hys. cbn [bind].
    split; [reflexivity | now constructor].
Qed.

(** [replace] throws what one of its callbacks threw. *)
Lemma replace_Throw (multiline : bool) (r : regex) (f : hit -> result jsstring)
      (input : jsstring) (e : error) :
  replace multiline r f input = Throw e -> exists h, f h = Throw e.
Proof.
  unfold replace. intros H.
  destruct (mapM _ (scan multiline r None 0 input)) as [parts|e'] eqn:E; [discriminate|].
  cbn [bind] in H. injection H as <-.
  apply mapM_Throw in E. destruct E as ([c|h] & _ & Hf); [discriminate | eauto].
Qed.


Lemma parse_Throw (s : jsstring) (e : error) :
  parseFullDayUTC s = Throw e -> e = BadDate s /\ dayShape s = None.
Proof.
  rewrite parseFullDayUTC_shape.
  destruct (dayShape s) as [[[[w m] d] y]|]; [discriminate|]. intros [= <-]. now split.
Qed.

Lemma dayIndex_Throw (start : Z) (s : jsstring) (e : error) :
  dayIndex start s = Throw e -> e = BadDate s /\ dayShape s = None.
Proof.
  unfold dayIndex. destruct (parseFullDayUTC s) eqn:E; cbn [bind]; [discriminate|].
  intros [= <-]. now apply parse_Throw.
Qed.

Lemma remapOne_Throw_shape (start win shift : Z) (s : jsstring) (e : error) :
  remapOne start win shift s = Throw e -> e = BadDate s /\ dayShape s = None.
Proof.
  unfold remapOne. destruct (parseFullDayUTC s) eqn:E; cbn [bind]; [discriminate|].
  intros [= <-]. now apply parse_Throw.
Qed.

Lemma rewrite_Throw_shape (start win shift : Z) (input : jsstring) (e : error) :
  (input1 <- replaceEcho (remapOne start win shift) input ;;
   replaceCommit (remapOne start win shift) input1) = Throw e ->
  exists s, e = BadDate s /\ dayShape s = None.
Proof.
  intros H. destruct (replaceEcho _ input) as [input1|e'] eqn:E1; cbn [bind] in H.
  - apply replace_Throw in H. destruct H as (h & H). unfold commitCallback in H.
    destruct (remapOne start win shift (group 4 h)) as [m|e'] eqn:E; cbn [bind] in H;
      [discriminate|].
    injection H as <-. apply remapOne_Throw_shape in E. eauto.
  - injection H as <-. apply replace_Throw in E1. destruct E1 as (line & E1).
    apply replace_Throw in E1. destruct E1 as (h & E1).
    apply remapOne_Throw_shape in E1. eauto.
Qed.


Lemma columns_fit (p : ColRow) (ps : list ColRow) :
  Forall (fun q => 0 <= col q <= 52) (p :: ps) ->
  maxColOf p ps - minColOf p ps + 1 <= 53.
Proof.
  intros H. rewrite Forall_forall in H.
  destruct (Math_min_spec (col p) (map col ps)) as [_ Hmin].
  destruct (Math_max_spec (col p) (map col ps)) as [_ Hmax].
  change (In (minColOf p ps) (map col (p :: ps))) in Hmin.
  change (In (maxColOf p ps) (map col (p :: ps))) in Hmax.
  apply in_map_iff in Hmin. apply in_map_iff in Hmax.
  destruct Hmin as (q1 & <- & H1). destruct Hmax as (q2 & <- & H2).
  pose proof (H q1 H1). pose proof (H q2 H2). lia.
Qed.

(** X14. A template whose message dates are real days of 2019 never fails
    with DrawingTooWide. *)
Theorem real_days_never_too_wide (align : Align) (now : Z) (text : jsstring) :
  (forall s, In s (gather (sanitize text)) -> realDay2019 s) ->
  forall w, main align now text <> Throw (DrawingTooWide w).
Proof.
  intros Hreal w. unfold main.
  destruct (gather (sanitize text)) as [|s msgs]; [discriminate|].
  destruct (real_day_index s (Hreal s (or_introl eq_refl))) as (i & Hi & _ & Hc & _).
  rewrite Hi. cbn [bind].
  destruct (mapM_Ok (dayIndex (gridStartUTC 2019)) (fun i => 0 <= col (toColRow i) <= 52) msgs)
    as (idxs & Hidxs & Hcols).
  { intros x Hx. destruct (real_day_index x (Hreal x (or_intror Hx))) as (j & Hj & _ & Hcj & _).
    eauto. }
  rewrite Hidxs. cbn [bind].
  assert (W : maxColOf (toColRow i) (map toColRow idxs)
              - minColOf (toColRow i) (map toColRow idxs) + 1 <= 53).
  { apply columns_fit. constructor; [exact Hc|]. now apply Forall_map. }
  rewrite shiftCols_cases.
  match goal with |- context [?a >? 53] =>
    replace (a >? 53) with false by (destruct (a >? 53) eqn:G; [lia | reflexivity]) end.
  destruct (_ && _); cbn [bind]; [discriminate|].
  intros H. apply rewrite_Throw_shape in H. destruct H as (s' & H & _). discriminate.
Qed.

(** X15. What the errors of a run report.  DrawingTooWide carries the number
    of columns between the first and the last column of the gathered dates,
    and that number is greater than 53.  The future-day error is raised for
    a drawing of exactly 53 columns with a point of its last column on a
    weekday after today's.  Bad date carries a string that does not start
    with the shape of a date literal. *)
Theorem main_error_causes (align : Align) (now : Z) (text : jsstring) (e : error) :
  main align now text = Throw e ->
  match e with
  | BadDate s => dayShape s = None
  | DrawingTooWide w =>
      exists i idxs,
        mapM (dayIndex (gridStartUTC 2019)) (gather (sanitize text)) = Ok (i :: idxs) /\
        w = maxColOf (toColRow i) (map toColRow idxs)
            - minColOf (toColRow i) (map toColRow idxs) + 1 /\
        53 < w
  | FutureDays =>
      exists i idxs,
        mapM (dayIndex (gridStartUTC 2019)) (gather (sanitize text)) = Ok (i :: idxs) /\
        maxColOf (toColRow i) (map toColRow idxs)
        - minColOf (toColRow i) (map toColRow idxs) + 1 = 53 /\
        lateInLastColumn (todayRow now) (toColRow i) (map toColRow idxs) = true
  end.
Proof.
  unfold main. destruct (gather (sanitize text)) as [|s msgs]; [discriminate|]. cbn [mapM].
  destruct (dayIndex (gridStartUTC 2019) s) as [i|e'] eqn:Ei; cbn [bind].
  2:{ intros [= <-]. apply dayIndex_Throw in Ei. destruct Ei as [-> Hs]. exact Hs. }
  destruct (mapM (dayIndex (gridStartUTC 2019)) msgs) as [idxs|e'] eqn:Em; cbn [bind].
  2:{ intros [= <-]. apply mapM_Throw in Em. destruct Em as (x & _ & Ex).
      apply dayIndex_Throw in Ex. destruct Ex as [-> Hs]. exact Hs. }
  rewrite shiftCols_cases.
  match goal with |- context [?a >? 53] => destruct (a >? 53) eqn:W end; cbn [bind].
  { intros [= <-]. exists i, idxs. split; [reflexivity|]. split; [reflexivity | lia]. }
  match goal with |- context [(?a =? 53) && ?b] =>
    destruct (a =? 53) eqn:W53; destruct b eqn:L end; cbn [andb bind].
  1:{ intros [= <-]. exists i, idxs. split; [reflexivity|]. split; [lia | exact L]. }
  all: intros H; apply rewrite_Throw_shape in H; destruct H as (s' & -> & Hs); exact Hs.
Qed.

(** ** Sanitizing *)

Lemma Subseq_refl {A : Type} (l : list A) : Subseq l l.
Proof. induction l; constructor; assumption. Qed.

Lemma Subseq_trans {A : Type} (l1 l2 l3 : list A) :
  Subseq l1 l2 -> Subseq l2 l3 -> Subseq l1 l3.
Proof.
  intros H12 H23. revert l1 H12.
  induction H23 as [|x l2 l3 H IH|x l2 l3 H IH]; intros l1 H12.
  - exact H12.
  - apply Subseq_drop. now apply IH.
  - inversion H12; subst.
    + apply Subseq_drop. now apply IH.
    + apply Subseq_keep. now apply IH.
Qed.

Lemma Subseq_length {A : Type} (l1 l2 : list A) :
  Subseq l1 l2 -> (List.length l1 <= List.length l2)%nat.
Proof. induction 1; cbn; lia. Qed.

Lemma scan_blank_Subseq (multiline : bool) (r : regex) (input : jsstring) :
  forall (before : option N) (skip : nat),
    Subseq (List.concat (map (fun p => match p with Hit _ => [] | Text c => [c] end)
                             (scan multiline r before skip input)))
           input.
Proof.
  induction input as [|c input IH]; intros before skip; cbn [scan].
  - destruct skip; [|apply Subseq_nil].
    destruct (exec_at multiline r before []); apply Subseq_nil.
  - destruct skip as [|n]; [|apply Subseq_drop; apply IH].
    destruct (exec_at multiline r before (c :: input)) as [h|].
    + cbn [map List.concat app].
      destruct (List.length (whole h)); [|apply Subseq_drop; apply IH].
      cbn [map List.concat app]. apply Subseq_keep. apply IH.
    + cbn [map List.concat app]. apply Subseq_keep. apply IH.
Qed.

(** X16. Sanitizing only deletes: what is left is the input with some code
    units left out, in their order, and so it is no longer than the
    input. *)
Theorem sanitize_only_deletes (text : jsstring) :
  Subseq (sanitize text) text /\ (List.length (sanitize text) <= List.length text)%nat.
Proof.
  assert (H : Subseq (sanitize text) text).
  { unfold sanitize. generalize sanitizers as res. intros res. revert text.
    induction res as [|re res IH]; intros text; cbn [fold_left].
    - apply Subseq_refl.
    - eapply Subseq_trans; [apply IH|]. unfold replaceWith. apply scan_blank_Subseq. }
  split; [exact H | now apply Subseq_length].
Qed.


(** ** More on the clock, the grid and the remapper *)

(** X6. For a clock at or after 1970, today is the midnight at or before
    the clock and [todayRow] is the weekday of the clock. *)
Theorem today_is_midnight (now : Z) :
  0 <= now ->
  todayUTC now = Day now * 86400000 /\
  todayUTC now <= now < todayUTC now + 86400000 /\
  todayRow now = WeekDay now.
Proof.
  intros H. pose proof (todayUTC_spec now H) as Ht.
  unfold todayRow. rewrite Ht. unfold WeekDay. rewrite Day_days.
  repeat split. unfold Day, msPerDay. div_mod_lia. unfold Day, msPerDay. div_mod_lia.
Qed.

(** X7. For a point inside the window, the check of line 142 holds exactly
    when the point would land on a day after today. *)
Theorem violatesFuture_iff_future (now s : Z) (q : ColRow) :
  0 <= col q + s <= 52 -> 0 <= row q <= 6 ->
  (violatesFuture s (todayRow now) q = true <->
   todayUTC now < fromGrid {| col := col q + s; row := row q |} (windowStartUTC now)).
Proof.
  intros Hc Hr. destruct (today_cell now) as (Ht & Hf).
  revert Ht Hf. generalize (windowStartUTC now) as win, (todayRow now) as r,
    (todayUTC now) as today.
  intros win r today Ht Hf. subst today.
  unfold violatesFuture, fromGrid, fromColRow, rightmostCol, GRID_WEEKS; cbn [col row].
  rewrite andb_true_iff, Z.eqb_eq, Z.gtb_ltb, Z.ltb_lt. lia.
Qed.

(** X11. Below the grid origin the two maps are no inverses: for a negative
    index that is no multiple of 7 the row is negative and [fromColRow]
    gives the index a week earlier. *)
Theorem grid_negative_index (i : Z) :
  i < 0 -> i mod 7 <> 0 ->
  -6 <= row (toColRow i) < 0 /\
  fromColRow (col (toColRow i)) (row (toColRow i)) = i - 7.
Proof. unfold toColRow, fromColRow; cbn [col row]. intros. div_mod_lia. Qed.


(** ** The text passes *)

Lemma rmatch_Chr_eq {R : Type} (multiline : bool) (c : N) (s : mstate)
      (k : mstate -> option R) (x : R) :
  rmatch multiline (Chr (N.eqb c)) s k = Some x ->
  exists cs, rest s = c :: cs /\
             k {| prev := Some c; rest := cs; pos := S (pos s); caps := caps s |} = Some x.
Proof.
  cbn [rmatch]. destruct (rest s) as [|c' cs]; [discriminate|].
  destruct (N.eqb c c') eqn:E; [|discriminate].
  apply N.eqb_eq in E. subst c'. eauto.
Qed.

(** X19. No match of the message pattern is empty: each one holds [git],
    so the loop of line 93, which asks for the next match after the last
    one, comes to an end. *)
Theorem msgRe_hit_not_empty (before : option N) (input : jsstring) (h : hit) :
  exec_at true msgRe before input = Some h ->
  exists pre post, whole h = pre ++ js "git" ++ post.
Proof.
  unfold exec_at, msgRe. unfold Seq at 1. cbn [fold_right]. intros H.
  rewrite rmatch_Cat in H. apply rmatch_consumes in H. destruct H as (s1 & w1 & (R1 & P1) & H).
  change (Lit "git")
    with (Cat (Chr (N.eqb 103)) (Cat (Chr (N.eqb 105)) (Cat (Chr (N.eqb 116)) Eps))) in H.
  cbv beta in H. rewrite !rmatch_Cat in H.
  apply rmatch_Chr_eq in H. destruct H as (r1 & Hg & H).
  cbv beta in H. rewrite rmatch_Cat in H.
  apply rmatch_Chr_eq in H. destruct H as (r2 & Hi & H).
  cbv beta in H. rewrite rmatch_Cat in H.
  apply rmatch_Chr_eq in H. destruct H as (r3 & Ht & H).
  cbv beta in H. rewrite rmatch_Eps in H.
  apply rmatch_consumes in H. destruct H as (s3 & w3 & (R3 & P3) & H).
  cbn [rest pos] in *. injection H as <-. cbn [whole].
  exists w1, w3. subst r1 r2.
  rewrite R1, Hg, R3, P3, P1. change (js "git") with [103%N; 105%N; 116%N].
  replace (w1 ++ 103%N :: 105%N :: 116%N :: w3 ++ rest s3)
    with ((w1 ++ [103%N; 105%N; 116%N] ++ w3) ++ rest s3)
    by (rewrite <- !app_assoc; reflexivity).
  apply firstn_exact. rewrite !length_app. cbn [List.length]. lia.
Qed.




(** ** The command line *)

Module CliFacts.
Import Cli.

Section ParseArgsFacts.
Variable toLowerCase : jsstring -> jsstring.

Lemma find_snoc {A : Type} (f : A -> bool) (l : list A) (x : A) :
  find f (l ++ [x]) = match find f l with Some y => Some y | None => if f x then Some x else None end.
Proof.
  induction l as [|a l IH]; cbn [app find].
  - reflexivity.
  - destruct (f a); [reflexivity | exact IH].
Qed.

Lemma fold_step_align (l : list jsstring) :
  forall a0 : Args,
    align (fold_left (step toLowerCase) l a0) =
    match find isAlignFlag (rev l) with
    | Some a => toLowerCase (skipn 8 a)
    | None => align a0
    end.
Proof.
  induction l as [|x l IH]; intros a0; cbn [fold_left rev find]; [reflexivity|].
  rewrite IH, find_snoc. destruct (find isAlignFlag (rev l)); [reflexivity|].
  unfold step. destruct (isAlignFlag x); [reflexivity|].
  destruct (falsy (template a0)); reflexivity.
Qed.

Lemma fold_step_template (l : list jsstring) :
  forall a0 : Args,
    template (fold_left (step toLowerCase) l a0) =
    if falsy (template a0)
    then match find isPath l with
         | Some p => Some p
         | None => if existsb (fun a => negb (isAlignFlag a)) l then Some [] else template a0
         end
    else template a0.
Proof.
  induction l as [|x l IH]; intros a0; cbn [fold_left find existsb].
  - destruct (falsy (template a0)); reflexivity.
  - rewrite IH. unfold step, isPath.
    destruct (isAlignFlag x) eqn:F; cbn [template negb andb orb]; [reflexivity|].
    destruct (falsy (template a0)) eqn:T0; cbn [template]; [|now rewrite T0].
    destruct x as [|c x]; cbn [falsy negb].
    + destruct (find _ l); [reflexivity|]. destruct (existsb _ l); reflexivity.
    + reflexivity.
Qed.

(** X17. [parseArgs] in closed form: [align] is the value of the last
    [--align=] argument after the first two, lower-cased, or [left] without
    one; [template] is the first other argument that is not empty, the empty
    string when only empty ones are there, and undefined otherwise. *)
Theorem parseArgs_spec (argv : list jsstring) :
  align (parseArgs toLowerCase argv) =
  match find isAlignFlag (rev (skipn 2 argv)) with
  | Some a => toLowerCase (skipn 8 a)
  | None => js "left"
  end /\
  template (parseArgs toLowerCase argv) =
  match find isPath (skipn 2 argv) with
  | Some p => Some p
  | None => if existsb (fun a => negb (isAlignFlag a)) (skipn 2 argv) then Some [] else None
  end.
Proof.
  unfold parseArgs. split.
  - now rewrite fold_step_align.
  - now rewrite fold_step_template.
Qed.

(** X18. The run stops with the usage line exactly when no argument can
    serve as the path, whatever the alignment; with a path, the last
    [--align=] value decides between the alignment error and the run. *)
Theorem entry_spec (argv : list jsstring) :
  entry toLowerCase argv =
  match find isPath (skipn 2 argv) with
  | None => Usage
  | Some path =>
      match alignOf (match find isAlignFlag (rev (skipn 2 argv)) with
                     | Some a => toLowerCase (skipn 8 a)
                     | None => js "left"
                     end) with
      | Some mode => Proceed path mode
      | None => BadAlign
      end
  end.
Proof.
  unfold entry, parseArgs. rewrite fold_step_align, fold_step_template.
  cbn [template align falsy].
  destruct (find isPath (skipn 2 argv)) as [p|] eqn:E.
  - apply find_some in E. destruct E as [_ E]. unfold isPath in E.
    apply andb_prop in E. destruct E as [_ E]. apply negb_true_iff in E. rewrite E.
    reflexivity.
  - destruct (existsb _ (skipn 2 argv)); reflexivity.
Qed.

End ParseArgsFacts.

End CliFacts.

(** ** Witnesses of the further properties *)

Lemma center_margins_witness :
  shiftCols AlignCenter 4 scenarioHead scenarioTail = Ok 15 /\
  let width := maxColOf scenarioHead scenarioTail - minColOf scenarioHead scenarioTail + 1 in
  let L := minColOf scenarioHead scenarioTail + 15 in
  let R := 52 - (maxColOf scenarioHead scenarioTail + 15) in
  L = (53 - width) / 2 /\ L <= R <= L + 1.
Proof.
  split; [vm_compute; reflexivity|].
  apply (center_margins 4 scenarioHead scenarioTail 15). vm_compute; reflexivity.
Defined.

Lemma today_is_midnight_witness :
  0 <= exNow /\
  todayUTC exNow = Day exNow * 86400000 /\
  todayUTC exNow <= exNow < todayUTC exNow + 86400000 /\
  todayRow exNow = WeekDay exNow.
Proof.
  split; [vm_compute; discriminate|].
  apply (today_is_midnight exNow). vm_compute; discriminate.
Defined.

Lemma violatesFuture_iff_future_witness :
  violatesFuture 40 (todayRow exNow) {| col := 12; row := 5 |} = true <->
  todayUTC exNow < fromGrid {| col := 12 + 40; row := 5 |} (windowStartUTC exNow).
Proof.
  apply (violatesFuture_iff_future exNow 40 {| col := 12; row := 5 |}); cbn [col row]; lia.
Defined.

Lemma remapped_days_in_window_witness :
  shiftCols AlignRight (todayRow exNow) (toGrid 1553817600000 (gridStartUTC 2019)) [] = Ok 39 /\
  windowStartUTC exNow
  <= newDayUTC (gridStartUTC 2019) (windowStartUTC exNow) 39 1553817600000
  <= todayUTC exNow.
Proof.
  split; [vm_compute; reflexivity|].
  apply (remapped_days_in_window AlignRight exNow
           (toGrid 1553817600000 (gridStartUTC 2019)) [] 39 1553817600000).
  - vm_compute; reflexivity.
  - vm_compute; discriminate.
  - left; reflexivity.
Defined.

Lemma remap_is_translation_witness :
  newDayUTC (gridStartUTC 2019) (windowStartUTC exNow) 39 1553817600000
  = 1553817600000 + (windowStartUTC exNow - gridStartUTC 2019) + 39 * 7 * 86400000.
Proof.
  apply (remap_is_translation (gridStartUTC 2019) (windowStartUTC exNow) 39 1553817600000).
  - vm_compute; discriminate.
  - vm_compute; reflexivity.
Defined.

Lemma remap_before_grid_start_witness :
  parseFullDayUTC (js "Thu Foo 24 2019 00:00:00 GMT-0500 (Eastern Standard Time)")
  = Ok 1545609600000 /\
  newDayUTC (gridStartUTC 2019) (windowStartUTC exNow) 1 1545609600000
  = 1545609600000 + (windowStartUTC exNow - gridStartUTC 2019) + 1 * 7 * 86400000
    - 7 * 86400000.
Proof.
  split; [vm_compute; reflexivity|].
  apply (remap_before_grid_start (gridStartUTC 2019) (windowStartUTC exNow) 1 1545609600000).
  - vm_compute; reflexivity.
  - vm_compute; reflexivity.
  - vm_compute; discriminate.
Defined.

Lemma grid_negative_index_witness :
  -6 <= row (toColRow (-6)) < 0 /\
  fromColRow (col (toColRow (-6))) (row (toColRow (-6))) = -6 - 7.
Proof. apply (grid_negative_index (-6)); [lia | vm_compute; discriminate]. Defined.

Lemma parse_fmt_round_trip_witness :
  fmtUTCNoon 1793318400000 = js "Fri Oct 30 2026 12:00:00 GMT+0000 (UTC)" /\
  parseFullDayUTC (fmtUTCNoon 1793318400000) = Ok 1793318400000.
Proof.
  split; [vm_compute; reflexivity|].
  apply (parse_fmt_round_trip 1793318400000).
  - vm_compute; reflexivity.
  - vm_compute; split; discriminate.
Defined.

Lemma parse_reads_16_witness :
  parseFullDayUTC (firstn 16 (js exLit) ++ js "12:34:56 GMT+0900 (Japan Standard Time)")
  = Ok 1553817600000.
Proof.
  apply (parse_reads_16 (js exLit) (js "12:34:56 GMT+0900 (Japan Standard Time)")
                        1553817600000).
  vm_compute; reflexivity.
Defined.

Lemma exLit_realDay : realDay2019 (js exLit).
Proof.
  exists (js "Fri"), (js "Mar"), (js "29"). split; [vm_compute; reflexivity|]. split.
  - right; right; left. reflexivity.
  - vm_compute. split; discriminate.
Defined.

Lemma real_days_never_too_wide_witness :
  gather (sanitize (commitLine "whatever" exLit)) = [js exLit] /\
  forall w, main AlignRight exNow (commitLine "whatever" exLit) <> Throw (DrawingTooWide w).
Proof.
  split; [vm_compute; reflexivity|].
  apply (real_days_never_too_wide AlignRight exNow (commitLine "whatever" exLit)).
  replace (gather (sanitize (commitLine "whatever" exLit))) with [js exLit]
    by (vm_compute; reflexivity).
  intros s [<-|[]]. exact exLit_realDay.
Defined.

Lemma main_error_causes_witness :
  main AlignLeft exNow wideText = Throw (DrawingTooWide 54) /\
  exists i idxs,
    mapM (dayIndex (gridStartUTC 2019)) (gather (sanitize wideText)) = Ok (i :: idxs) /\
    54 = maxColOf (toColRow i) (map toColRow idxs)
         - minColOf (toColRow i) (map toColRow idxs) + 1 /\
    53 < 54.
Proof.
  split; [vm_compute; reflexivity|].
  apply (main_error_causes AlignLeft exNow wideText (DrawingTooWide 54)). vm_compute; reflexivity.
Defined.

Lemma msgRe_hit_not_empty_witness :
  exec_at true msgRe None (commitLine "x" exLit)
  = Some {| whole := commitLine "x" exLit; groups := [(1%nat, js exLit)] |} /\
  exists pre post, commitLine "x" exLit = pre ++ js "git" ++ post.
Proof.
  split; [vm_compute; reflexivity|].
  apply (msgRe_hit_not_empty None (commitLine "x" exLit)
           {| whole := commitLine "x" exLit; groups := [(1%nat, js exLit)] |}).
  vm_compute; reflexivity.
Defined.
